(** * MeshGuard client: decision protocol, error taxonomy and tool governance

    A shallow embedding of [src/client.ts], [src/exceptions.ts],
    [src/types.ts] and [src/langchain.ts].  Of the last, [governedTool]
    and [GovernedTool] are embedded; [GovernedToolkit] is not: what its
    lookup [actionMap[tool.name]] finds depends on the prototype of an
    object the caller supplies.

    - JavaScript values that come from the gateway (parsed JSON bodies) are
      untyped: the [as string | undefined] casts of the source do nothing at
      run time, so the fields they feed hold a [JsValue].  Values passed in
      by the caller (actions, tokens, paths) have their declared types.
    - Objects are finite maps of their own string-keyed properties, over
      the members they inherit: an own property named [toString] shadows
      [Object.prototype.toString], and since no value of a parsed body can
      be called, converting such an object to text throws; an array
      inherits [entries], one of the names the program reads, from
      [Array.prototype].
    - An [async] function is a state-and-error computation [M A]: the result
      [Ok a] is a promise fulfilled with [a], [Err e] a promise rejected
      with [e].  The state records, in order, every call of the global
      [fetch] and every call of a caller-supplied function, the number of
      [await] suspension points passed, and the outside world.
    - The host primitives ([JSON.parse], the global [fetch], number
      formatting, [URLSearchParams]) are the fields of the classes
      [JsNumbers] and [Host]; the general theorems hold for every host,
      the worked examples run on the reference host of the tests. *)

From Stdlib Require Import Ascii String ZArith Lia.
From stdpp Require Import base option list strings gmap fin_maps pretty.

Local Open Scope Z_scope.
Local Set Warnings "-register-all".
Local Set Warnings "-clear-no-such-hyp".

(** ** JavaScript values *)

Class JsNumbers := {
  number : Type;
  (** numeric literals of the source ([50], [30_000]) *)
  Number_ofZ : Z → number;
  (** [String(n)], also the conversion inside a template literal *)
  Number_toString : number → string;
  (** [ToBoolean]: false exactly on [0], [-0] and [NaN] *)
  Number_truthy : number → bool;
}.

Inductive JsValue `{JsNumbers} : Type :=
  | JUndefined
  | JNull
  | JBool (b : bool)
  | JNum (n : number)
  | JStr (s : string)
  | JArr (l : list JsValue)
  | JObj (m : gmap string JsValue)
  (** a built-in method reached through a prototype, by its name *)
  | JNative (name : string).

Section Values.
Context `{JsNumbers}.

(** [ToBoolean], the test of [if (v)], [!v] and [a && b]. *)
Definition truthy (v : JsValue) : bool :=
  match v with
  | JUndefined | JNull => false
  | JBool b => b
  | JNum n => Number_truthy n
  | JStr s => negb (String.eqb s "")
  | JArr _ | JObj _ | JNative _ => true
  end.

(** The empty string is the only falsy string. *)
Definition truthy_str (s : string) : bool := negb (String.eqb s "").

Definition truthy_opt (o : option string) : bool :=
  match o with Some s => truthy_str s | None => false end.

(** [a ?? b] *)
Definition nullish (a b : JsValue) : JsValue :=
  match a with
  | JUndefined | JNull => b
  | _ => a
  end.

(** [v === "literal"] *)
Definition strict_equals_string (v : JsValue) (literal : string) : bool :=
  match v with
  | JStr s => String.eqb s literal
  | _ => false
  end.

(** An optional, declared-string argument as the value the callee sees. *)
Definition js_of_opt (o : option string) : JsValue :=
  match o with Some s => JStr s | None => JUndefined end.

End Values.

(** ** The error taxonomy ([src/exceptions.ts]) *)

Section Errors.
Context `{JsNumbers}.

(** The own fields of a [PolicyDeniedError] instance. *)
Record PolicyDenied := mkPolicyDenied {
  pd_message : string;
  pd_action : JsValue;
  pd_policy : JsValue;
  pd_rule : JsValue;
  pd_reason : JsValue;
}.

(** What can be thrown.  The first four are the classes of the package
    ([MeshGuardError] standing for a direct instance of the base class);
    [TypeError] and [SyntaxError] are raised by the language itself;
    [OtherError] is anything else (an [AbortError] of the transport, an
    error of a caller-supplied function). *)
Inductive JsError : Type :=
  | MeshGuardError (message : string)
  | AuthenticationError (message : string)
  | PolicyDeniedError (e : PolicyDenied)
  | RateLimitError (message : string)
  | TypeError (message : string)
  | SyntaxError (message : string)
  | OtherError (name message : string).

(** [err instanceof PolicyDeniedError] *)
Definition instanceof_PolicyDeniedError (err : JsError) : bool :=
  match err with PolicyDeniedError _ => true | _ => false end.

(** [err instanceof MeshGuardError]: the base class and its subclasses. *)
Definition instanceof_MeshGuardError (err : JsError) : bool :=
  match err with
  | MeshGuardError _ | AuthenticationError _
  | PolicyDeniedError _ | RateLimitError _ => true
  | _ => false
  end.

(** [err.message] *)
Definition error_message (err : JsError) : string :=
  match err with
  | MeshGuardError m | AuthenticationError m | RateLimitError m
  | TypeError m | SyntaxError m | OtherError _ m => m
  | PolicyDeniedError e => pd_message e
  end.

(** A promise outcome: fulfilled or rejected; also the outcome of a
    synchronous evaluation that may throw. *)
Inductive Result (A : Type) : Type :=
  | Ok (a : A)
  | Err (e : JsError).

Arguments Ok {_} a.
Arguments Err {_} e.

Definition Result_bind {A B} (r : Result A) (k : A → Result B) : Result B :=
  match r with
  | Ok a => k a
  | Err e => Err e
  end.

(** [ToString], the conversion of [`${v}`].  An object converts through
    its [toString] member: the inherited one answers ["[object Object]"];
    an own property of that name is looked up first, is not callable (no
    value of a parsed body is), and neither is an own [valueOf], while the
    inherited [valueOf] returns the object itself, so the conversion
    throws.  An array converts through [join], which renders [null] and
    [undefined] elements as empty and converts the others in order.  A
    built-in method prints as V8 prints it. *)
Fixpoint ToString (v : JsValue) : Result string :=
  match v with
  | JUndefined => Ok "undefined"
  | JNull => Ok "null"
  | JBool true => Ok "true"
  | JBool false => Ok "false"
  | JNum n => Ok (Number_toString n)
  | JStr s => Ok s
  | JArr l =>
      (fix join (l : list JsValue) : Result string :=
         match l with
         | [] => Ok ""
         | x :: rest =>
             Result_bind
               match x with
               | JUndefined | JNull => Ok ""
               | _ => ToString x
               end
               (λ first,
                  match rest with
                  | [] => Ok first
                  | _ => Result_bind (join rest) (λ others, Ok (first +:+ "," +:+ others))
                  end)
         end) l
  | JObj m =>
      match m !! "toString" with
      | Some _ => Err (TypeError "Cannot convert object to primitive value")
      | None => Ok "[object Object]"
      end
  | JNative name => Ok ("function " +:+ name +:+ "() { [native code] }")
  end.

(** The argument of [new PolicyDeniedError(options)]. *)
Record PolicyDeniedOptions := mkPolicyDeniedOptions {
  opt_action : JsValue;
  opt_policy : JsValue;
  opt_rule : JsValue;
  opt_reason : JsValue;
}.

(** The constructor of [PolicyDeniedError].  The destructuring default
    applies when [reason] is [undefined] (not when it is [null] or empty);
    the policy and rule parts are guarded by truthiness.  Each template
    converts its value to text, in the order of the source, and the first
    conversion that throws ends the construction. *)
Definition new_PolicyDeniedError (options : PolicyDeniedOptions) : Result PolicyDenied :=
  let action := opt_action options in
  let policy := opt_policy options in
  let rule := opt_rule options in
  let reason :=
    match opt_reason options with
    | JUndefined => JStr "Access denied by policy"
    | r => r
    end in
  Result_bind (ToString action) (λ a,
  let message := "Action '" +:+ a +:+ "' denied" in
  Result_bind
    (if truthy policy
     then Result_bind (ToString policy) (λ p, Ok (message +:+ " by policy '" +:+ p +:+ "'"))
     else Ok message) (λ message,
  Result_bind
    (if truthy rule
     then Result_bind (ToString rule) (λ r, Ok (message +:+ " (rule: " +:+ r +:+ ")"))
     else Ok message) (λ message,
  Result_bind (ToString reason) (λ r,
  let message := message +:+ ": " +:+ r in
  Ok {| pd_message := message;
        pd_action := action;
        pd_policy := policy;
        pd_rule := rule;
        pd_reason := reason |})))).

(** How the Fetch API fails: [fetch] and [response.text()] reject with a
    [TypeError] (network failure, broken body stream, body already read)
    or with the [AbortError] of an aborted signal, and with nothing
    else. *)
Inductive HostError : Type :=
  | NetworkError (message : string)
  | AbortError (message : string).

Definition host_error (e : HostError) : JsError :=
  match e with
  | NetworkError m => TypeError m
  | AbortError m => OtherError "AbortError" m
  end.

(** What a promise of the host settles to. *)
Inductive HostResult (A : Type) : Type :=
  | Resolved (a : A)
  | Failed (e : HostError).

End Errors.

Arguments Resolved {_} a.
Arguments Failed {_} e.

Arguments Ok {_ _} a.
Arguments Err {_ _} e.

(** ** Data model ([src/types.ts]) *)

Inductive Decision : Type := allow | deny.

(** [interface PolicyDecision].  [policy], [rule] and [reason] are filled
    from the response body by unchecked casts; [JUndefined] is "unset". *)
Module PolicyDecision.
Record t `{JsNumbers} := mk {
  allowed : bool;
  action : string;
  decision : Decision;
  policy : JsValue;
  rule : JsValue;
  reason : JsValue;
  traceId : string;
}.
End PolicyDecision.

(** [interface MeshGuardOptions] *)
Module MeshGuardOptions.
Record t `{JsNumbers} := mk {
  gatewayUrl : option string;
  agentToken : option string;
  adminToken : option string;
  timeout : option number;
  traceId : option string;
}.
End MeshGuardOptions.

(** The three variables of [process.env] read by the constructor. *)
Record ProcessEnv := mkProcessEnv {
  MESHGUARD_GATEWAY_URL : option string;
  MESHGUARD_AGENT_TOKEN : option string;
  MESHGUARD_ADMIN_TOKEN : option string;
}.

(** [interface Agent], as [listAgents] builds it. *)
Module Agent.
Record t `{JsNumbers} := mk {
  id : JsValue;
  name : JsValue;
  trustTier : JsValue;
  tags : JsValue;
  orgId : JsValue;
}.
End Agent.

(** [interface CreateAgentOptions] *)
Module CreateAgentOptions.
Record t := mk {
  name : string;
  trustTier : option string;
  tags : option (list string);
}.
End CreateAgentOptions.

(** [interface AuditLogOptions] *)
Module AuditLogOptions.
Record t `{JsNumbers} := mk {
  limit : option number;
  decision : option string;
}.
End AuditLogOptions.

(** ** Requests and responses of the Fetch API *)

(** [HeadersInit]: a [Headers] instance (given by what [entries()] yields),
    a plain record, or an array of pairs. *)
Inductive HeadersInit `{JsNumbers} : Type :=
  | HI_Headers (entries : list (string * string))
  | HI_Record (r : gmap string JsValue)
  | HI_Pairs (l : list (list string)).

(** [init.signal]: the caller's own signal, or the signal of the
    [AbortController] that [MeshGuardClient.fetch] arms with its timeout. *)
Inductive Signal `{JsNumbers} : Type :=
  | CallerSignal
  | TimeoutSignal (ms : number).

(** [init.body]: a text, or the text [JSON.stringify(v)] of a value. *)
Inductive BodyInit `{JsNumbers} : Type :=
  | BodyText (s : string)
  | BodyJSON (v : JsValue).

Module RequestInit.
Record t `{JsNumbers} := mk {
  method : option string;
  headers : option HeadersInit;
  body : option BodyInit;
  signal : option Signal;
}.
Definition empty `{JsNumbers} : t :=
  {| method := None; headers := None; body := None; signal := None |}.
End RequestInit.

(** A [Response] as the transport hands it over: its status, whether it
    has a body at all ([response.body] is [null] on a 204), and what the
    first [response.text()] settles to (reading fails when the connection
    breaks; without a body it gives the empty text). *)
Module Response.
Record t := mk {
  status : Z;
  has_body : bool;
  text : HostResult string;
}.
End Response.

(** ** The host *)

Class Host `{JsNumbers} := {
  (** whatever the gateway and the caller's functions can see and change *)
  World : Type;
  (** [JSON.parse]; [None] is a thrown [SyntaxError] *)
  JSON_parse : string → option JsValue;
  (** the message of the [SyntaxError] the host's parser raises on a text
      it rejects *)
  JSON_parse_error : string → string;
  (** the message of the [TypeError] with which [text()] and [json()]
      reject on a response whose body has been read *)
  body_used_message : string;
  (** [`${params}`] for a [URLSearchParams] holding these entries *)
  URLSearchParams_toString : list (string * string) → string;
  (** the global [fetch]: resolves with a response or rejects *)
  global_fetch : string → RequestInit.t → World → HostResult Response.t * World;
}.

Section Runtime.
Context `{Host}.

(** How a call of a caller-supplied function completes: it returns a value
    (or a promise that fulfils with it), returns a promise that rejects, or
    throws on the spot.  The last two differ inside a [try] block whose
    [return] is not awaited. *)
Inductive Completion (A : Type) : Type :=
  | Returns (v : A)
  | Rejects (e : JsError)
  | Throws (e : JsError).

Definition Callable (A : Type) : Type := World → Completion A * World.

Inductive ToolMethod : Type := m_invoke | m_call.

(** What the program does to its surroundings, in order. *)
Inductive Event : Type :=
  | EvFetch (url : string) (init : RequestInit.t)
  | EvFn
  | EvTool (m : ToolMethod) (args : list JsValue)
  | EvOnDeny (err : PolicyDenied) (args : list JsValue).

Record State := mkState {
  trace : list Event;
  awaits : nat;
  world : World;
}.

(** ** The monad of asynchronous computations *)

Definition M (A : Type) : Type := State → Result A * State.

Definition ret {A} (a : A) : M A := λ s, (Ok a, s).

Definition throw {A} (e : JsError) : M A := λ s, (Err e, s).

Definition bind {A B} (m : M A) (k : A → M B) : M B :=
  λ s, match m s with
       | (Ok a, s') => k a s'
       | (Err e, s') => (Err e, s')
       end.

(** [try { body } catch (err) { handler }] *)
Definition try_catch {A} (body : M A) (handler : JsError → M A) : M A :=
  λ s, match body s with
       | (Ok a, s') => (Ok a, s')
       | (Err e, s') => handler e s'
       end.

(** [try { body } finally { fin }] *)
Definition try_finally {A} (body : M A) (fin : M unit) : M A :=
  λ s, match body s with
       | (r, s') =>
           match fin s' with
           | (Ok _, s'') => (r, s'')
           | (Err e, s'') => (Err e, s'')
           end
       end.

Definition tick (s : State) : State :=
  {| trace := trace s; awaits := S (awaits s); world := world s |}.

(** [await p]: [p] is run, then the caller is suspended once and resumes
    with the outcome of [p]. *)
Definition await {A} (p : M A) : M A :=
  λ s, match p s with (r, s') => (r, tick s') end.

Definition lift {A} (r : Result A) : M A :=
  match r with Ok a => ret a | Err e => throw e end.

(** The outcome of a host promise, as the program's own outcome. *)
Definition settled {A} (r : HostResult A) : Result A :=
  match r with Resolved a => Ok a | Failed e => Err (host_error e) end.

Definition emit (ev : Event) : M unit :=
  λ s, (Ok tt, {| trace := trace s ++ [ev]; awaits := awaits s; world := world s |}).

(** Calling [f] synchronously: a thrown error is raised here, a returned
    promise is handed back unsettled. *)
Definition call {A} (ev : Event) (f : Callable A) : M (Result A) :=
  λ s, match f (world s) with
       | (c, w) =>
           let s' := {| trace := trace s ++ [ev]; awaits := awaits s; world := w |} in
           match c with
           | Returns _ v => (Ok (Ok v), s')
           | Rejects _ e => (Ok (Err e), s')
           | Throws _ e => (Err e, s')
           end
       end.

(** [array.map(f)] with a callback that may throw. *)
Fixpoint mapM {A B} (f : A → M B) (l : list A) : M (list B) :=
  match l with
  | [] => ret []
  | x :: rest =>
      bind (f x) (λ y, bind (mapM f rest) (λ ys, ret (y :: ys)))
  end.

End Runtime.

Arguments Returns {_ _} v.
Arguments Rejects {_ _} e.
Arguments Throws {_ _} e.

Declare Scope js_scope.
Delimit Scope js_scope with js.
Notation "x <- m ;; k" := (bind m (λ x, k))
  (at level 100, m at next level, right associativity) : js_scope.
Notation "m ;;; k" := (bind m (λ _, k))
  (at level 100, right associativity) : js_scope.

(** ** Language-level helpers *)

Section Language.
Context `{Host}.

(** [v.k] for the property names this program reads ([policy], [rule],
    [message], [action], [agents], [policies], [entries], [status], [id],
    [name], [trustTier], [tags] and [orgId]): a [TypeError] on [null] and
    [undefined]; the own property of an object ([Object.prototype] has no
    member of these names); on an array [entries] is the method inherited
    from [Array.prototype] and the other names are [undefined]; a function
    has its [name]; numbers, booleans and strings have none of them. *)
Definition Get (v : JsValue) (k : string) : Result JsValue :=
  match v with
  | JUndefined =>
      Err (TypeError ("Cannot read properties of undefined (reading '" +:+ k +:+ "')"))
  | JNull =>
      Err (TypeError ("Cannot read properties of null (reading '" +:+ k +:+ "')"))
  | JObj m => Ok (default JUndefined (m !! k))
  | JArr _ => Ok (if String.eqb k "entries" then JNative "entries" else JUndefined)
  | JNative name => Ok (if String.eqb k "name" then JStr name else JUndefined)
  | _ => Ok JUndefined
  end.

(** [Object.assign(target, source)] on a plain [target]: the source's
    properties win.  Each is stored by assignment, and assigning to
    [__proto__] runs the setter inherited from [Object.prototype], which
    creates no property. *)
Definition Object_assign (target source : gmap string JsValue) : gmap string JsValue :=
  delete "__proto__" source ∪ target.

(** [Object.fromEntries]: a later entry replaces an earlier one. *)
Definition Object_fromEntries (entries : list (string * JsValue)) : gmap string JsValue :=
  foldl (λ m kv, <[kv.1 := kv.2]> m) ∅ entries.

(** The own enumerable properties of an array: its indices. *)
Definition array_props (l : list JsValue) : gmap string JsValue :=
  Object_fromEntries (imap (λ i v, (pretty i, v)) l).

(** [s.replace(/^\/+/, "")] *)
Fixpoint strip_leading_slashes (s : string) : string :=
  match s with
  | String "/"%char rest => strip_leading_slashes rest
  | _ => s
  end.

(** [s.replace(/\/+$/, "")] *)
Definition strip_trailing_slashes (s : string) : string :=
  String.rev (strip_leading_slashes (String.rev s)).

(** [response.text()] *)
Definition Response_text (response : Response.t) : M string :=
  lift (settled (Response.text response)).

(** [JSON.parse(text)] *)
Definition JSON_parse_or_throw (text : string) : M JsValue :=
  match JSON_parse text with
  | Some v => ret v
  | None => throw (SyntaxError (JSON_parse_error text))
  end.

(** [response.json()]: the body text, parsed; a text that does not parse
    rejects with the parser's [SyntaxError]. *)
Definition Response_json (response : Response.t) : M JsValue :=
  bind (Response_text response) JSON_parse_or_throw.

(** The object [response] after [text()] has been called on it: the
    status is what it was; a body, once read, is used, and a further
    [text()] or [json()] rejects; a response without body is as it
    was. *)
Definition Response_consumed (response : Response.t) : Response.t :=
  if Response.has_body response then
    {| Response.status := Response.status response;
       Response.has_body := true;
       Response.text := Failed (NetworkError body_used_message) |}
  else response.

(** The global [fetch(url, init)]; each call is recorded. *)
Definition fetch_global (url : string) (init : RequestInit.t) : M Response.t :=
  λ s, match global_fetch url init (world s) with
       | (r, w) =>
           (settled r, {| trace := trace s ++ [EvFetch url init];
                  awaits := awaits s;
                  world := w |})
       end.

(** [clearTimeout(timer)] *)
Definition clearTimeout : M unit := ret tt.

End Language.

(** ** [class MeshGuardClient] ([src/client.ts]) *)

Module MeshGuardClient.

Record t `{JsNumbers} := mk {
  gatewayUrl : string;
  agentToken : option string;
  adminToken : option string;
  timeout : number;
  traceId : string;
}.

Section Methods.
Context `{Host}.
Local Open Scope js_scope.

(** [constructor(options)].  [env] is [process.env] and [uuid] the value
    [crypto.randomUUID()] would return; [??] falls through on an absent
    option only. *)
Definition new (env : ProcessEnv) (uuid : string) (options : MeshGuardOptions.t) : t :=
  {| gatewayUrl :=
       strip_trailing_slashes
         (default
            (default "http://localhost:3100" (MESHGUARD_GATEWAY_URL env))
            (MeshGuardOptions.gatewayUrl options));
     agentToken :=
       match MeshGuardOptions.agentToken options with
       | Some tok => Some tok
       | None => MESHGUARD_AGENT_TOKEN env
       end;
     adminToken :=
       match MeshGuardOptions.adminToken options with
       | Some tok => Some tok
       | None => MESHGUARD_ADMIN_TOKEN env
       end;
     timeout := default (Number_ofZ 30000) (MeshGuardOptions.timeout options);
     traceId := default uuid (MeshGuardOptions.traceId options) |}.

(** [private headers(includeAuth = true)] *)
Definition headers (this : t) (includeAuth : bool) : gmap string JsValue :=
  let h : gmap string JsValue := {[ "X-MeshGuard-Trace-ID" := JStr (traceId this) ]} in
  match agentToken this with
  | Some tok =>
      if includeAuth && truthy_str tok
      then <[ "Authorization" := JStr ("Bearer " +:+ tok) ]> h
      else h
  | None => h
  end.

(** [private adminHeaders()] *)
Definition adminHeaders (this : t) : Result (gmap string JsValue) :=
  match adminToken this with
  | Some tok =>
      if truthy_str tok
      then Ok (<[ "X-MeshGuard-Trace-ID" := JStr (traceId this) ]>
                 {[ "X-Admin-Token" := JStr tok ]})
      else Err (AuthenticationError "Admin token required for this operation")
  | None => Err (AuthenticationError "Admin token required for this operation")
  end.

(** [private async safeJson(response)] *)
Definition safeJson (response : Response.t) : M JsValue :=
  text <- await (Response_text response) ;;
  if negb (truthy_str text) then ret (JObj ∅)
  else
    try_catch (JSON_parse_or_throw text) (λ _, ret (JObj ∅)).

(** [private async handleResponse(response)] *)
Definition handleResponse (response : Response.t) : M JsValue :=
  let status := Response.status response in
  if status =? 401 then throw (AuthenticationError "Invalid or expired token")
  else if status =? 403 then
    data <- await (safeJson response) ;;
    action <- lift (Get data "action") ;;
    policy <- lift (Get data "policy") ;;
    rule <- lift (Get data "rule") ;;
    message <- lift (Get data "message") ;;
    err <- lift (new_PolicyDeniedError
      {| opt_action := nullish action (JStr "unknown");
         opt_policy := policy;
         opt_rule := rule;
         opt_reason := nullish message (JStr "Access denied by policy") |}) ;;
    throw (PolicyDeniedError err)
  else if status =? 429 then throw (RateLimitError "Rate limit exceeded")
  else if status >=? 400 then
    text <- await (Response_text response) ;;
    throw (MeshGuardError ("Request failed: " +:+ pretty status +:+ " " +:+ text))
  else safeJson response.

(** [private async fetch(url, init)]: the request carries the signal of a
    fresh controller armed with the client's timeout; the timer is cleared
    whatever the outcome. *)
Definition fetch (this : t) (url : string) (init : RequestInit.t) : M Response.t :=
  try_finally
    (await (fetch_global url
       {| RequestInit.method := RequestInit.method init;
          RequestInit.headers := RequestInit.headers init;
          RequestInit.body := RequestInit.body init;
          RequestInit.signal := Some (TimeoutSignal (timeout this)) |}))
    clearTimeout.

(** The headers [check] sends. *)
Definition check_headers (this : t) (action : string) (resource : option string)
    : gmap string JsValue :=
  let h := headers this true in
  let h := <[ "X-MeshGuard-Action" := JStr action ]> h in
  match resource with
  | Some r => if truthy_str r then <[ "X-MeshGuard-Resource" := JStr r ]> h else h
  | None => h
  end.

(** [async check(action, resource?)] *)
Definition check (this : t) (action : string) (resource : option string)
    : M PolicyDecision.t :=
  let h := check_headers this action resource in
  try_catch
    (response <- await (fetch this (gatewayUrl this +:+ "/proxy/check")
        {| RequestInit.method := Some "GET";
           RequestInit.headers := Some (HI_Record h);
           RequestInit.body := None;
           RequestInit.signal := None |}) ;;
     if Response.status response =? 403 then
       data <- await (safeJson response) ;;
       policy <- lift (Get data "policy") ;;
       rule <- lift (Get data "rule") ;;
       message <- lift (Get data "message") ;;
       ret {| PolicyDecision.allowed := false;
              PolicyDecision.action := action;
              PolicyDecision.decision := deny;
              PolicyDecision.policy := policy;
              PolicyDecision.rule := rule;
              PolicyDecision.reason := message;
              PolicyDecision.traceId := traceId this |}
     else
       data <- await (handleResponse response) ;;
       policy <- lift (Get data "policy") ;;
       ret {| PolicyDecision.allowed := true;
              PolicyDecision.action := action;
              PolicyDecision.decision := allow;
              PolicyDecision.policy := policy;
              PolicyDecision.rule := JUndefined;
              PolicyDecision.reason := JUndefined;
              PolicyDecision.traceId := traceId this |})
    (λ err,
       match err with
       | PolicyDeniedError e =>
           ret {| PolicyDecision.allowed := false;
                  PolicyDecision.action := action;
                  PolicyDecision.decision := deny;
                  PolicyDecision.policy := pd_policy e;
                  PolicyDecision.rule := pd_rule e;
                  PolicyDecision.reason := pd_reason e;
                  PolicyDecision.traceId := traceId this |}
       | _ => throw err
       end).

(** [async enforce(action, resource?)] *)
Definition enforce (this : t) (action : string) (resource : option string)
    : M PolicyDecision.t :=
  decision <- await (check this action resource) ;;
  if negb (PolicyDecision.allowed decision) then
    err <- lift (new_PolicyDeniedError
      {| opt_action := JStr action;
         opt_policy := PolicyDecision.policy decision;
         opt_rule := PolicyDecision.rule decision;
         opt_reason := PolicyDecision.reason decision |}) ;;
    throw (PolicyDeniedError err)
  else ret decision.

(** [async govern(action, fn, resource?)] *)
Definition govern {T} (this : t) (action : string) (fn : Callable T)
    (resource : option string) : M T :=
  await (enforce this action resource) ;;;
  (r <- call EvFn fn ;; lift r).

(** The caller's [init.headers] as the record that is merged: the entries
    of a [Headers] instance as an object, and anything else as it is (for
    an array of pairs, [Object.assign] then copies the index properties). *)
Definition extra_headers (hi : HeadersInit) : gmap string JsValue :=
  match hi with
  | HI_Headers entries =>
      Object_fromEntries ((λ kv : string * string, (kv.1, JStr kv.2)) <$> entries)
  | HI_Record r => r
  | HI_Pairs l => array_props ((λ pair : list string, JArr (JStr <$> pair)) <$> l)
  end.

(** The header record [request] builds. *)
Definition request_headers (this : t) (action : string) (init : RequestInit.t)
    : gmap string JsValue :=
  let h := <[ "X-MeshGuard-Action" := JStr action ]> (headers this true) in
  match RequestInit.headers init with
  | Some hi => Object_assign h (extra_headers hi)
  | None => h
  end.

(** [async request(method, path, action, init = {})].  The response
    returned is the object [handleResponse] has been given: on this path
    [safeJson] has read its body. *)
Definition request (this : t) (method path action : string) (init : RequestInit.t)
    : M Response.t :=
  let h := request_headers this action init in
  response <- await (fetch this
      (gatewayUrl this +:+ "/proxy/" +:+ strip_leading_slashes path)
      {| RequestInit.method := Some method;
         RequestInit.headers := Some (HI_Record h);
         RequestInit.body := RequestInit.body init;
         RequestInit.signal := RequestInit.signal init |}) ;;
  await (handleResponse response) ;;;
  ret (Response_consumed response).

Definition get (this : t) (path action : string) (init : RequestInit.t) : M Response.t :=
  request this "GET" path action init.

Definition post (this : t) (path action : string) (init : RequestInit.t) : M Response.t :=
  request this "POST" path action init.

Definition put (this : t) (path action : string) (init : RequestInit.t) : M Response.t :=
  request this "PUT" path action init.

Definition delete (this : t) (path action : string) (init : RequestInit.t) : M Response.t :=
  request this "DELETE" path action init.

(** *** Health *)

(** [async health()] *)
Definition health (this : t) : M JsValue :=
  response <- await (fetch this (gatewayUrl this +:+ "/health") RequestInit.empty) ;;
  await (Response_json response).

(** [async isHealthy()] *)
Definition isHealthy (this : t) : M bool :=
  try_catch
    (h <- await (health this) ;;
     status <- lift (Get h "status") ;;
     ret (strict_equals_string status "healthy"))
    (λ _, ret false).

(** *** Admin operations *)

(** The callback of [agents.map] in [listAgents]. *)
Definition agent_of (a : JsValue) : M Agent.t :=
  id <- lift (Get a "id") ;;
  name <- lift (Get a "name") ;;
  trustTier <- lift (Get a "trustTier") ;;
  tags <- lift (Get a "tags") ;;
  orgId <- lift (Get a "orgId") ;;
  ret {| Agent.id := id;
         Agent.name := name;
         Agent.trustTier := trustTier;
         Agent.tags := nullish tags (JArr []);
         Agent.orgId := orgId |}.

(** [async listAgents()] *)
Definition listAgents (this : t) : M (list Agent.t) :=
  h <- lift (adminHeaders this) ;;
  response <- await (fetch this (gatewayUrl this +:+ "/admin/agents")
      {| RequestInit.method := None;
         RequestInit.headers := Some (HI_Record h);
         RequestInit.body := None;
         RequestInit.signal := None |}) ;;
  data <- await (handleResponse response) ;;
  agents <- lift (Get data "agents") ;;
  match nullish agents (JArr []) with
  | JArr l => mapM agent_of l
  | _ => throw (TypeError "agents.map is not a function")
  end.

(** [async createAgent(options)] *)
Definition createAgent (this : t) (options : CreateAgentOptions.t) : M JsValue :=
  h <- lift (adminHeaders this) ;;
  let h := <[ "Content-Type" := JStr "application/json" ]> h in
  let body := BodyJSON (JObj
    (<[ "tags" := JArr (JStr <$> default [] (CreateAgentOptions.tags options)) ]>
     (<[ "trustTier" := JStr (default "verified" (CreateAgentOptions.trustTier options)) ]>
      {[ "name" := JStr (CreateAgentOptions.name options) ]}))) in
  response <- await (fetch this (gatewayUrl this +:+ "/admin/agents")
      {| RequestInit.method := Some "POST";
         RequestInit.headers := Some (HI_Record h);
         RequestInit.body := Some body;
         RequestInit.signal := None |}) ;;
  handleResponse response.

(** [async revokeAgent(agentId)] *)
Definition revokeAgent (this : t) (agentId : string) : M unit :=
  let url := gatewayUrl this +:+ "/admin/agents/" +:+ agentId in
  h <- lift (adminHeaders this) ;;
  response <- await (fetch this url
      {| RequestInit.method := Some "DELETE";
         RequestInit.headers := Some (HI_Record h);
         RequestInit.body := None;
         RequestInit.signal := None |}) ;;
  await (handleResponse response) ;;;
  ret tt.

(** [async listPolicies()] *)
Definition listPolicies (this : t) : M JsValue :=
  h <- lift (adminHeaders this) ;;
  response <- await (fetch this (gatewayUrl this +:+ "/admin/policies")
      {| RequestInit.method := None;
         RequestInit.headers := Some (HI_Record h);
         RequestInit.body := None;
         RequestInit.signal := None |}) ;;
  data <- await (handleResponse response) ;;
  policies <- lift (Get data "policies") ;;
  ret (nullish policies (JArr [])).

(** [async getAuditLog(options = {})] *)
Definition getAuditLog (this : t) (options : AuditLogOptions.t) : M JsValue :=
  let params :=
    [("limit", Number_toString (default (Number_ofZ 50) (AuditLogOptions.limit options)))] in
  let params :=
    match AuditLogOptions.decision options with
    | Some d => if truthy_str d then params ++ [("decision", d)] else params
    | None => params
    end in
  let url := gatewayUrl this +:+ "/admin/audit?" +:+ URLSearchParams_toString params in
  h <- lift (adminHeaders this) ;;
  response <- await (fetch this url
      {| RequestInit.method := None;
         RequestInit.headers := Some (HI_Record h);
         RequestInit.body := None;
         RequestInit.signal := None |}) ;;
  data <- await (handleResponse response) ;;
  entries <- lift (Get data "entries") ;;
  ret (nullish entries (JArr [])).

End Methods.
End MeshGuardClient.

(** ** Tool governance ([src/langchain.ts]) *)

(** [interface LangChainTool]; [call] is the optional legacy method. *)
Module LangChainTool.
Record t `{Host} := mk {
  name : string;
  description : string;
  invoke : list JsValue → Callable JsValue;
  call : option (list JsValue → Callable JsValue);
}.
End LangChainTool.

Section Governance.
Context `{Host}.
Local Open Scope js_scope.

(** [type DenyHandler] *)
Definition DenyHandler : Type := PolicyDenied → list JsValue → Callable JsValue.

(** [Reflect.get(target, prop, receiver)] for the two intercepted names. *)
Definition Reflect_get (target : LangChainTool.t) (prop : ToolMethod)
    : option (list JsValue → Callable JsValue) :=
  match prop with
  | m_invoke => Some (LangChainTool.invoke target)
  | m_call => LangChainTool.call target
  end.

(** The [catch] block shared by both wrappers. *)
Definition on_denied (onDeny : option DenyHandler) (args : list JsValue)
    (err : JsError) : M (Result JsValue) :=
  match err, onDeny with
  | PolicyDeniedError e, Some handler => call (EvOnDeny e args) (handler e args)
  | _, _ => throw err
  end.

(** The function the proxy of [governedTool] hands out for [invoke] and
    [call].  The tool's promise is returned without [await], so only an
    error thrown on the spot reaches the [catch] block. *)
Definition governedTool (action : string) (client : MeshGuardClient.t)
    (tool : LangChainTool.t) (onDeny : option DenyHandler)
    (prop : ToolMethod) (args : list JsValue) : M JsValue :=
  r <- try_catch
         (await (MeshGuardClient.enforce client action None) ;;;
          match Reflect_get tool prop with
          | Some fn => call (EvTool prop args) (fn args)
          | None =>
              throw (TypeError "Cannot read properties of undefined (reading 'apply')")
          end)
         (on_denied onDeny args) ;;
  lift r.

End Governance.

(** [class GovernedTool] *)
Module GovernedTool.

Record t `{Host} := mk {
  name : string;
  description : string;
  action : string;
  tool : LangChainTool.t;
  client : MeshGuardClient.t;
  onDeny : option DenyHandler;
}.

(** The argument of the constructor. *)
Record options `{Host} := mkOptions {
  o_tool : LangChainTool.t;
  o_action : string;
  o_client : MeshGuardClient.t;
  o_onDeny : option DenyHandler;
}.

Section Methods.
Context `{Host}.
Local Open Scope js_scope.

Definition new (o : options) : t :=
  {| name := LangChainTool.name (o_tool o);
     description := LangChainTool.description (o_tool o);
     action := o_action o;
     tool := o_tool o;
     client := o_client o;
     onDeny := o_onDeny o |}.

(** [async invoke(input, config?)] *)
Definition invoke (this : t) (input config : JsValue) : M JsValue :=
  r <- try_catch
         (await (MeshGuardClient.enforce (client this) (action this) None) ;;;
          call (EvTool m_invoke [input; config])
               (LangChainTool.invoke (tool this) [input; config]))
         (on_denied (onDeny this) [input; config]) ;;
  lift r.

(** [async call(input, config?)] *)
Definition call (this : t) (input config : JsValue) : M JsValue :=
  invoke this input config.

End Methods.
End GovernedTool.

(** ** What the theorems observe *)

Section Observations.
Context `{Host}.

Definition is_fetch (ev : Event) : bool :=
  match ev with EvFetch _ _ => true | _ => false end.

Definition is_fn (ev : Event) : bool :=
  match ev with EvFn => true | _ => false end.

Definition is_tool (ev : Event) : bool :=
  match ev with EvTool _ _ => true | _ => false end.

Fixpoint count_events (p : Event → bool) (l : list Event) : nat :=
  match l with
  | [] => O
  | ev :: rest => if p ev then S (count_events p rest) else count_events p rest
  end.

(** The number of calls of the global [fetch] so far. *)
Definition transport_calls (s : State) : nat := count_events is_fetch (trace s).

(** The number of calls of the function handed to [govern] so far. *)
Definition fn_calls (s : State) : nat := count_events is_fn (trace s).

(** The number of calls of a wrapped tool so far. *)
Definition tool_calls (s : State) : nat := count_events is_tool (trace s).


(** The state after one more recorded event that leaves the world at [w]. *)
Definition logged (s : State) (ev : Event) (w : World) : State :=
  {| trace := trace s ++ [ev]; awaits := awaits s; world := w |}.

(** The promise an [async] function settles to when its last statement is
    [return f()]. *)
Definition settle {A} (c : Completion A) : Result A :=
  match c with
  | Returns v => Ok v
  | Rejects e | Throws e => Err e
  end.

(** The request [check] hands to the global [fetch]. *)
Definition check_url (this : MeshGuardClient.t) : string :=
  MeshGuardClient.gatewayUrl this +:+ "/proxy/check".

Definition check_init (this : MeshGuardClient.t) (action : string)
    (resource : option string) : RequestInit.t :=
  {| RequestInit.method := Some "GET";
     RequestInit.headers :=
       Some (HI_Record (MeshGuardClient.check_headers this action resource));
     RequestInit.body := None;
     RequestInit.signal := Some (TimeoutSignal (MeshGuardClient.timeout this)) |}.

(** The gateway answers the check of [action] with the response [resp]. *)
Definition gateway_answers (this : MeshGuardClient.t) (action : string)
    (resource : option string) (s : State) (resp : Response.t) : Prop :=
  ∃ w, global_fetch (check_url this) (check_init this action resource) (world s)
       = (Resolved resp, w).

(** The decision [check] returns on a denial that names nothing. *)
Definition bare_denial (this : MeshGuardClient.t) (action : string) : PolicyDecision.t :=
  {| PolicyDecision.allowed := false;
     PolicyDecision.action := action;
     PolicyDecision.decision := deny;
     PolicyDecision.policy := JUndefined;
     PolicyDecision.rule := JUndefined;
     PolicyDecision.reason := JUndefined;
     PolicyDecision.traceId := MeshGuardClient.traceId this |}.

(** What [throw new PolicyDeniedError(options)] raises, given the outcome
    of the construction: the new error, or the [TypeError] that ended
    it. *)
Definition thrown (construction : Result PolicyDenied) : JsError :=
  match construction with
  | Ok e => PolicyDeniedError e
  | Err e => e
  end.

(** A value that converts to text. *)
Definition printable (v : JsValue) : Prop := ∃ text, ToString v = Ok text.

(** The error [enforce] builds from a decision. *)
Definition denial_error (d : PolicyDecision.t) : Result PolicyDenied :=
  new_PolicyDeniedError
    {| opt_action := JStr (PolicyDecision.action d);
       opt_policy := PolicyDecision.policy d;
       opt_rule := PolicyDecision.rule d;
       opt_reason := PolicyDecision.reason d |}.

(** [n] slashes *)
Fixpoint slashes (n : nat) : string :=
  match n with
  | O => ""
  | S n' => String "/" (slashes n')
  end.

Definition starts_with_slash (s : string) : Prop := ∃ rest, s = String "/" rest.

Definition ends_with_slash (s : string) : Prop := ∃ front, s = front +:+ "/".





(** A text that does not begin with the letter X (no decimal index does). *)
Definition not_X_headed (s : string) : Prop := ∀ rest, s ≠ String "X" rest.

(** The requests handed to the global [fetch] between two states. *)
Definition sent_since (s s1 : State) (evs : list Event) : Prop :=
  trace s1 = trace s ++ evs.

(** The [RequestInit] the client's [fetch] hands on for a caller's [init]:
    the same, under the signal of the timeout controller. *)
Definition with_timeout (this : MeshGuardClient.t) (init : RequestInit.t)
    : RequestInit.t :=
  {| RequestInit.method := RequestInit.method init;
     RequestInit.headers := RequestInit.headers init;
     RequestInit.body := RequestInit.body init;
     RequestInit.signal := Some (TimeoutSignal (MeshGuardClient.timeout this)) |}.

(** What [safeJson] makes of a body text. *)
Definition body_value (text : string) : JsValue :=
  if truthy_str text then default (JObj ∅) (JSON_parse text) else JObj ∅.

(** The deny path of a governed invocation [governed] of a tool guarded by
    [client.enforce(action)], with deny handler [onDeny], called with
    [args]: a handler, when there is one, receives the policy denial and
    the arguments and its outcome is the outcome of the invocation; without
    a handler the denial is rethrown; any other error of [enforce] is
    rethrown whether or not there is a handler. *)
Definition deny_contract (client : MeshGuardClient.t) (action : string)
    (onDeny : option DenyHandler) (args : list JsValue)
    (governed : M JsValue) (s : State) : Prop :=
  (∀ e s1 handler,
     MeshGuardClient.enforce client action None s = (Err (PolicyDeniedError e), s1) →
     onDeny = Some handler →
     governed s = (settle (handler e args (world s1)).1,
                   logged (tick s1) (EvOnDeny e args) (handler e args (world s1)).2))
  ∧ (∀ e s1,
     MeshGuardClient.enforce client action None s = (Err (PolicyDeniedError e), s1) →
     onDeny = None →
     governed s = (Err (PolicyDeniedError e), tick s1))
  ∧ (∀ err s1,
     MeshGuardClient.enforce client action None s = (Err err, s1) →
     instanceof_PolicyDeniedError err = false →
     governed s = (Err err, tick s1)).

(** *** Three sentences of the specification, as they are written *)


(** "[check] returns without throwing only when the status is 200
    (allowed) or 403 (not allowed); every other status makes it throw." *)
Definition check_returns_only_on_200_and_403 (this : MeshGuardClient.t)
    (action : string) (resource : option string) (s : State) : Prop :=
  ∀ resp, gateway_answers this action resource s resp →
    (∀ d s', MeshGuardClient.check this action resource s = (Ok d, s') →
       (Response.status resp = 200 ∧ PolicyDecision.allowed d = true)
       ∨ (Response.status resp = 403 ∧ PolicyDecision.allowed d = false))
    ∧ (Response.status resp ≠ 200 → Response.status resp ≠ 403 →
       ∃ e s', MeshGuardClient.check this action resource s = (Err e, s')).

(** The constructor of [PolicyDeniedError] applied to arguments of their
    declared types. *)
Definition PolicyDeniedError_of (action : string) (policy rule reason : option string)
    : Result PolicyDenied :=
  new_PolicyDeniedError
    {| opt_action := JStr action;
       opt_policy := js_of_opt policy;
       opt_rule := js_of_opt rule;
       opt_reason := js_of_opt reason |}.

(** "[Action '{action}' denied[ by policy '{policy}'][ (rule: {rule})]:
    {reason}]", each bracket printed exactly when its field is present. *)
Definition documented_message (action : string) (policy rule reason : option string)
    : string :=
  "Action '" +:+ action +:+ "' denied"
  +:+ match policy with Some p => " by policy '" +:+ p +:+ "'" | None => "" end
  +:+ match rule with Some r => " (rule: " +:+ r +:+ ")" | None => "" end
  +:+ ": " +:+ default "Access denied by policy" reason.

(** The same composition with each bracket printed exactly when its field
    is present and not the empty string. *)
Definition composed_message (action : string) (policy rule reason : option string)
    : string :=
  "Action '" +:+ action +:+ "' denied"
  +:+ match policy with
      | Some p => if truthy_str p then " by policy '" +:+ p +:+ "'" else ""
      | None => ""
      end
  +:+ match rule with
      | Some r => if truthy_str r then " (rule: " +:+ r +:+ ")" else ""
      | None => ""
      end
  +:+ ": " +:+ default "Access denied by policy" reason.

End Observations.

(** ** A reference host for the worked examples

    Numbers are integers, the world is trivial, the global [fetch] always
    settles to one prepared outcome (as [jest]'s [mockResolvedValue] does in
    [tests/client.test.ts]), and [JSON_parse] reads the escape-free,
    fraction-free fragment of JSON: the three literals, integers up to
    [2^53 - 1] in size, strings without backslash, arrays and objects.  On a text of that fragment it
    returns what [JSON.parse] returns; the examples use no other text that
    is valid JSON.  The messages are those of Node.js; the parser's message
    is exact on the empty text, the one rejected text whose message an
    example shows.  Query strings are joined without percent-encoding,
    which is exact on the unreserved characters the examples use. *)

Module Reference.

Definition Z_numbers : JsNumbers :=
  {| number := Z;
     Number_ofZ := λ z, z;
     Number_toString := pretty;
     Number_truthy := λ z, negb (z =? 0) |}.

#[local] Existing Instance Z_numbers.

Definition dquote : ascii := ascii_of_nat 34.

(** [s] between double quotes *)
Definition quoted (s : string) : string :=
  String dquote (s +:+ String dquote "").

Definition is_ws (c : ascii) : bool :=
  match nat_of_ascii c with
  | 32%nat | 9%nat | 10%nat | 13%nat => true
  | _ => false
  end.

Fixpoint skip_ws (s : string) : string :=
  match s with
  | String c rest => if is_ws c then skip_ws rest else s
  | EmptyString => s
  end.

Fixpoint strip_prefix (p s : string) : option string :=
  match p, s with
  | EmptyString, _ => Some s
  | String a p', String b s' => if Ascii.eqb a b then strip_prefix p' s' else None
  | String _ _, EmptyString => None
  end.

(** The characters of a string up to its closing quote; a backslash or a
    control character is outside the fragment. *)
Fixpoint parse_chars (s : string) (acc : string) : option (string * string) :=
  match s with
  | EmptyString => None
  | String c rest =>
      if Ascii.eqb c dquote then Some (String.rev acc, rest)
      else if Ascii.eqb c "\"%char then None
      else if (nat_of_ascii c <? 32)%nat then None
      else parse_chars rest (String c acc)
  end.

Definition digit_of (c : ascii) : option Z :=
  let n := nat_of_ascii c in
  if ((48 <=? n) && (n <=? 57))%nat then Some (Z.of_nat (n - 48)) else None.

Fixpoint parse_digits (s : string) (acc : Z) : Z * string :=
  match s with
  | String c rest =>
      match digit_of c with
      | Some d => parse_digits rest (10 * acc + d)
      | None => (acc, s)
      end
  | EmptyString => (acc, s)
  end.

(** [0] or a digit string without leading zero, not followed by a
    fraction or an exponent, and small enough to be a number exactly. *)
Definition parse_nat_lit (s : string) : option (Z * string) :=
  match s with
  | String c rest =>
      match digit_of c with
      | Some d =>
          let '(n, rest') := if d =? 0 then (0, rest) else parse_digits rest d in
          match rest' with
          | String c' _ =>
              if Ascii.eqb c' "."%char || Ascii.eqb c' "e"%char || Ascii.eqb c' "E"%char
              then None
              else match digit_of c' with
                   | Some _ => None
                   | None => if n <=? 9007199254740991 then Some (n, rest') else None
                   end
          | EmptyString => if n <=? 9007199254740991 then Some (n, rest') else None
          end
      | None => None
      end
  | EmptyString => None
  end.

Fixpoint parse_value (fuel : nat) (s : string) : option (JsValue * string) :=
  match fuel with
  | O => None
  | S fuel' =>
      let elements :=
        fix elements (k : nat) (s : string) (acc : list JsValue)
            : option (list JsValue * string) :=
          match k with
          | O => None
          | S k' =>
              match parse_value fuel' s with
              | Some (v, rest) =>
                  match skip_ws rest with
                  | String "," rest' => elements k' rest' (acc ++ [v])
                  | String "]" rest' => Some (acc ++ [v], rest')
                  | _ => None
                  end
              | None => None
              end
          end in
      let members :=
        fix members (k : nat) (s : string) (acc : gmap string JsValue)
            : option (gmap string JsValue * string) :=
          match k with
          | O => None
          | S k' =>
              match skip_ws s with
              | String c rest =>
                  if Ascii.eqb c dquote then
                    match parse_chars rest "" with
                    | Some (key, rest1) =>
                        match skip_ws rest1 with
                        | String ":" rest2 =>
                            match parse_value fuel' rest2 with
                            | Some (v, rest3) =>
                                match skip_ws rest3 with
                                | String "," rest4 => members k' rest4 (<[key := v]> acc)
                                | String "}" rest4 => Some (<[key := v]> acc, rest4)
                                | _ => None
                                end
                            | None => None
                            end
                        | _ => None
                        end
                    | None => None
                    end
                  else None
              | EmptyString => None
              end
          end in
      match skip_ws s with
      | EmptyString => None
      | String c rest =>
          if Ascii.eqb c "n"%char then
            rest' ← strip_prefix "ull" rest; Some (JNull, rest')
          else if Ascii.eqb c "t"%char then
            rest' ← strip_prefix "rue" rest; Some (JBool true, rest')
          else if Ascii.eqb c "f"%char then
            rest' ← strip_prefix "alse" rest; Some (JBool false, rest')
          else if Ascii.eqb c dquote then
            '(str, rest') ← parse_chars rest ""; Some (JStr str, rest')
          else if Ascii.eqb c "["%char then
            match skip_ws rest with
            | String "]" rest' => Some (JArr [], rest')
            | _ => '(l, rest') ← elements fuel' rest []; Some (JArr l, rest')
            end
          else if Ascii.eqb c "{"%char then
            match skip_ws rest with
            | String "}" rest' => Some (JObj ∅, rest')
            | _ => '(m, rest') ← members fuel' rest ∅; Some (JObj m, rest')
            end
          else if Ascii.eqb c "-"%char then
            '(n, rest') ← parse_nat_lit rest; Some (JNum (- n), rest')
          else
            '(n, rest') ← parse_nat_lit (String c rest); Some (JNum n, rest')
      end
  end.

Definition JSON_parse_ref (text : string) : option JsValue :=
  match parse_value (S (String.length text)) text with
  | Some (v, rest) =>
      match skip_ws rest with
      | EmptyString => Some v
      | _ => None
      end
  | None => None
  end.

(** The host of the tests: every [fetch] settles to [outcome]. *)
Definition mockFetch (outcome : HostResult Response.t) : Host :=
  {| World := unit;
     JSON_parse := JSON_parse_ref;
     JSON_parse_error :=
       λ text, if String.eqb text "" then "Unexpected end of JSON input"
               else "Unexpected token in JSON";
     body_used_message := "Body is unusable: Body has already been read";
     URLSearchParams_toString :=
       λ params, String.concat "&" ((λ kv : string * string, kv.1 +:+ "=" +:+ kv.2) <$> params);
     global_fetch := λ _ _ w, (outcome, w) |}.

(** [new Response(body, { status })] with a body that reads fine. *)
Definition response (status : Z) (body : string) : Response.t :=
  {| Response.status := status;
     Response.has_body := true;
     Response.text := Resolved body |}.

(** [new Response(null, { status: 204 })] *)
Definition no_content : Response.t :=
  {| Response.status := 204;
     Response.has_body := false;
     Response.text := Resolved "" |}.

Definition no_env : ProcessEnv :=
  {| MESHGUARD_GATEWAY_URL := None;
     MESHGUARD_AGENT_TOKEN := None;
     MESHGUARD_ADMIN_TOKEN := None |}.

(** [new MeshGuardClient({ agentToken: "tok", traceId: "trace-1" })] *)
Definition client : MeshGuardClient.t :=
  MeshGuardClient.new no_env "00000000-0000-4000-8000-000000000000"
    {| MeshGuardOptions.gatewayUrl := None;
       MeshGuardOptions.agentToken := Some "tok";
       MeshGuardOptions.adminToken := None;
       MeshGuardOptions.timeout := None;
       MeshGuardOptions.traceId := Some "trace-1" |}.

(** Nothing has happened yet. *)
Definition start (outcome : HostResult Response.t) : @State _ (mockFetch outcome) :=
  @mkState _ (mockFetch outcome) [] O tt.

(** The body of the denial in [tests/client.test.ts]:
    [{ policy: "strict", rule: "no-contacts", message: "Denied" }]. *)
Definition denial_body : string :=
  "{" +:+ quoted "policy" +:+ ":" +:+ quoted "strict" +:+ ","
      +:+ quoted "rule" +:+ ":" +:+ quoted "no-contacts" +:+ ","
      +:+ quoted "message" +:+ ":" +:+ quoted "Denied" +:+ "}".

(** [{ policy: "default" }] *)
Definition allow_body : string :=
  "{" +:+ quoted "policy" +:+ ":" +:+ quoted "default" +:+ "}".

(** A function for [govern]: [() => 42]. *)
Definition fn_42 (outcome : HostResult Response.t) : @Callable _ (mockFetch outcome) JsValue :=
  λ w, (Returns (JNum 42), w).

(** A tool that echoes its first argument. *)
Definition echo_tool (outcome : HostResult Response.t) : @LangChainTool.t _ (mockFetch outcome) :=
  {| LangChainTool.name := "echo";
     LangChainTool.description := "returns its input";
     LangChainTool.invoke := λ args w, (Returns (default JUndefined (head args)), w);
     LangChainTool.call := None |}.

(** A deny handler: [(err) => `Search blocked: ${err.reason}`] (README). *)
Definition blocked_handler (outcome : HostResult Response.t)
    : @DenyHandler _ (mockFetch outcome) :=
  λ err args w,
    match ToString (pd_reason err) with
    | Ok reason => (Returns (JStr ("Search blocked: " +:+ reason)), w)
    | Err e => (Throws e, w)
    end.

(** The gateway answers of the examples. *)
Definition allowed_200 : HostResult Response.t := Resolved (response 200 allow_body).
Definition empty_204 : HostResult Response.t := Resolved no_content.
Definition denied_403 : HostResult Response.t := Resolved (response 403 denial_body).
Definition html_403 : HostResult Response.t := Resolved (response 403 "<html>Forbidden</html>").
Definition null_403 : HostResult Response.t := Resolved (response 403 "null").
Definition failed_500 : HostResult Response.t := Resolved (response 500 "{}").

(** The decisions [check] returns in the two tests of [check()]. *)
Definition allowed_decision : PolicyDecision.t :=
  {| PolicyDecision.allowed := true;
     PolicyDecision.action := "read:contacts";
     PolicyDecision.decision := allow;
     PolicyDecision.policy := JStr "default";
     PolicyDecision.rule := JUndefined;
     PolicyDecision.reason := JUndefined;
     PolicyDecision.traceId := "trace-1" |}.

Definition denied_decision : PolicyDecision.t :=
  {| PolicyDecision.allowed := false;
     PolicyDecision.action := "read:contacts";
     PolicyDecision.decision := deny;
     PolicyDecision.policy := JStr "strict";
     PolicyDecision.rule := JStr "no-contacts";
     PolicyDecision.reason := JStr "Denied";
     PolicyDecision.traceId := "trace-1" |}.

(** [new MeshGuardClient({ adminToken: "adm", traceId: "trace-1" })] *)
Definition admin_client : MeshGuardClient.t :=
  MeshGuardClient.new no_env "00000000-0000-4000-8000-000000000000"
    {| MeshGuardOptions.gatewayUrl := None;
       MeshGuardOptions.agentToken := None;
       MeshGuardOptions.adminToken := Some "adm";
       MeshGuardOptions.timeout := None;
       MeshGuardOptions.traceId := Some "trace-1" |}.

(** The body of the [listAgents()] test:
    [{ agents: [{ id: "a1", name: "Bot A", trustTier: "verified",
    tags: ["prod"] }] }]. *)
Definition agents_body : string :=
  "{" +:+ quoted "agents" +:+ ":[{"
      +:+ quoted "id" +:+ ":" +:+ quoted "a1" +:+ ","
      +:+ quoted "name" +:+ ":" +:+ quoted "Bot A" +:+ ","
      +:+ quoted "trustTier" +:+ ":" +:+ quoted "verified" +:+ ","
      +:+ quoted "tags" +:+ ":[" +:+ quoted "prod" +:+ "]}]}".

(** [{ agents: "none" }] *)
Definition bad_agents_body : string :=
  "{" +:+ quoted "agents" +:+ ":" +:+ quoted "none" +:+ "}".

(** [{ status: "degraded" }] *)
Definition degraded_body : string :=
  "{" +:+ quoted "status" +:+ ":" +:+ quoted "degraded" +:+ "}".

(** [{ policy: { toString: 1 } }] *)
Definition unprintable_body : string :=
  "{" +:+ quoted "policy" +:+ ":{" +:+ quoted "toString" +:+ ":1}}".

(** [{ action: "write:secrets", message: null }] *)
Definition null_message_body : string :=
  "{" +:+ quoted "action" +:+ ":" +:+ quoted "write:secrets" +:+ ","
      +:+ quoted "message" +:+ ":null}".

Definition agents_200 : HostResult Response.t := Resolved (response 200 agents_body).
Definition bad_agents_200 : HostResult Response.t := Resolved (response 200 bad_agents_body).
Definition empty_200 : HostResult Response.t := Resolved (response 200 "").
Definition degraded_503 : HostResult Response.t := Resolved (response 503 degraded_body).
Definition null_message_403 : HostResult Response.t :=
  Resolved (response 403 null_message_body).
Definition unprintable_403 : HostResult Response.t :=
  Resolved (response 403 unprintable_body).

(** The decision [check] returns on the last of these. *)
Definition unprintable_decision : PolicyDecision.t :=
  {| PolicyDecision.allowed := false;
     PolicyDecision.action := "read:contacts";
     PolicyDecision.decision := deny;
     PolicyDecision.policy := JObj {[ "toString" := JNum 1 ]};
     PolicyDecision.rule := JUndefined;
     PolicyDecision.reason := JUndefined;
     PolicyDecision.traceId := "trace-1" |}.

(** Caller options whose headers are an array of pairs. *)
Definition pairs_init : RequestInit.t :=
  {| RequestInit.method := Some "PATCH";
     RequestInit.headers := Some (HI_Pairs [["X-MeshGuard-Action"; "admin:all"]]);
     RequestInit.body := None;
     RequestInit.signal := Some CallerSignal |}.



End Reference.

(** * Properties *)

Ltac run :=
  unfold MeshGuardClient.check, MeshGuardClient.enforce, MeshGuardClient.govern,
    MeshGuardClient.handleResponse, MeshGuardClient.safeJson, MeshGuardClient.fetch,
    fetch_global, Response_text, JSON_parse_or_throw, clearTimeout, try_finally,
    try_catch, await, bind, lift, settled, host_error, ret, throw, call in *.

Ltac split_match :=
  match goal with
  | H : context [match ?x with _ => _ end] |- _ => destruct x eqn:?
  | |- context [match ?x with _ => _ end] => destruct x eqn:?
  end.

(** A property read never fails with a policy denial. *)
Ltac no_policy_denied :=
  match goal with
  | Hg : Get ?v _ = Err (PolicyDeniedError _) |- _ => by destruct v
  end.

Ltac crush := repeat (split_match; simpl in *; simplify_eq); try no_policy_denied.

Section Strings.

Lemma append_assoc (a b c : string) : (a +:+ b) +:+ c = a +:+ (b +:+ c).
Proof.
  induction a as [|ch a IH]; [done|].
  change (String ch ((a +:+ b) +:+ c) = String ch (a +:+ (b +:+ c))).
  by rewrite IH.
Qed.

End Strings.

Section Conversions.
Context `{JsNumbers}.

(** Induction on values, with the elements of an array at hand. *)
Lemma JsValue_elements_ind (P : JsValue → Prop) :
  P JUndefined → P JNull → (∀ b, P (JBool b)) → (∀ n, P (JNum n)) →
  (∀ s, P (JStr s)) → (∀ l, Forall P l → P (JArr l)) → (∀ m, P (JObj m)) →
  (∀ name, P (JNative name)) → ∀ v, P v.
Proof.
  intros Hu Hn Hb Hnum Hs Ha Ho Hf.
  refine (fix IH (v : JsValue) : P v :=
            match v with
            | JUndefined => Hu
            | JNull => Hn
            | JBool b => Hb b
            | JNum n => Hnum n
            | JStr s => Hs s
            | JArr l =>
                Ha l ((fix elements (l : list JsValue) : Forall P l :=
                         match l with
                         | [] => @List.Forall_nil _ P
                         | x :: rest => @List.Forall_cons _ P x rest (IH x) (elements rest)
                         end) l)
            | JObj m => Ho m
            | JNative name => Hf name
            end).
Qed.

Lemma ToString_JArr_cons (x : JsValue) (rest : list JsValue) :
  ToString (JArr (x :: rest)) =
    Result_bind
      match x with
      | JUndefined | JNull => Ok ""
      | _ => ToString x
      end
      (λ first,
         match rest with
         | [] => Ok first
         | _ => Result_bind (ToString (JArr rest)) (λ others, Ok (first +:+ "," +:+ others))
         end).
Proof. reflexivity. Qed.

(** A conversion to text fails in one way only. *)
Lemma ToString_Err (v : JsValue) e :
  ToString v = Err e → e = TypeError "Cannot convert object to primitive value".
Proof.
  revert e. induction v as [| |b|n|s|l IH|m|name] using JsValue_elements_ind;
    intros e; try discriminate.
  - destruct b; discriminate.
  - induction IH as [|x rest Hx _ IHrest]; [discriminate|].
    rewrite ToString_JArr_cons. unfold Result_bind.
    destruct (match x with JUndefined | JNull => Ok "" | _ => ToString x end)
      as [first|e0] eqn:Hfirst.
    + destruct rest as [|y rest]; [discriminate|].
      destruct (ToString (JArr (y :: rest))) as [others|e1]; [discriminate|].
      intros [= <-]. by apply IHrest.
    + intros [= <-]. apply Hx. by destruct x.
  - simpl. destruct (m !! "toString"); [|discriminate]. by intros [= <-].
Qed.

(** An object that does not shadow [toString], and every value that is
    not an object or an array, converts to text. *)
Lemma printable_JStr s : printable (JStr s).
Proof. by eexists. Qed.

Lemma printable_JUndefined : printable JUndefined.
Proof. by eexists. Qed.

Lemma printable_JNull : printable JNull.
Proof. by eexists. Qed.

Lemma printable_JObj (m : gmap string JsValue) :
  printable (JObj m) ↔ m !! "toString" = None.
Proof.
  unfold printable. simpl. destruct (m !! "toString").
  - split; [by intros [? ?]|done].
  - split; [done|by eexists].
Qed.

(** The constructor fails only with the error of a failed conversion. *)
Lemma new_PolicyDeniedError_Err options e :
  new_PolicyDeniedError options = Err e →
  e = TypeError "Cannot convert object to primitive value".
Proof.
  unfold new_PolicyDeniedError, Result_bind.
  repeat match goal with
  | |- context [match ToString ?v with _ => _ end] =>
      let E := fresh "E" in
      destruct (ToString v) eqn:E; [|apply ToString_Err in E]
  | |- context [if ?b then _ else _] => destruct b
  end; intros [=]; congruence.
Qed.

(** The fields of a constructed error are the options, the reason
    defaulted. *)
Lemma new_PolicyDeniedError_fields options e :
  new_PolicyDeniedError options = Ok e →
  pd_action e = opt_action options
  ∧ pd_policy e = opt_policy options
  ∧ pd_rule e = opt_rule options
  ∧ pd_reason e = match opt_reason options with
                  | JUndefined => JStr "Access denied by policy"
                  | r => r
                  end.
Proof.
  unfold new_PolicyDeniedError, Result_bind.
  repeat match goal with
  | |- context [match ToString ?v with _ => _ end] => destruct (ToString v)
  | |- context [if ?b then _ else _] => destruct b
  end; intros [=]; subst; done.
Qed.

(** The constructor succeeds on options that convert to text. *)
Lemma new_PolicyDeniedError_printable options :
  printable (opt_action options) → printable (opt_policy options) →
  printable (opt_rule options) → printable (opt_reason options) →
  ∃ e, new_PolicyDeniedError options = Ok e.
Proof.
  intros [a Ha] [p Hp] [r Hr] [re Hre].
  assert (Hreason : ∃ t, ToString match opt_reason options with
                                  | JUndefined => JStr "Access denied by policy"
                                  | r => r
                                  end = Ok t).
  { destruct (opt_reason options); simpl in *; eauto. }
  destruct Hreason as [t Hreason].
  unfold new_PolicyDeniedError, Result_bind. rewrite Ha, Hp, Hr, Hreason.
  destruct (truthy (opt_policy options)), (truthy (opt_rule options)); eauto.
Qed.

End Conversions.

Section Protocol.
Context `{Host}.
Import MeshGuardClient.

(** ** The decision protocol *)

Lemma fetch_run this url init s :
  fetch this url init s =
    let init' := {| RequestInit.method := RequestInit.method init;
                    RequestInit.headers := RequestInit.headers init;
                    RequestInit.body := RequestInit.body init;
                    RequestInit.signal := Some (TimeoutSignal (timeout this)) |} in
    (settled (global_fetch url init' (world s)).1,
     tick (logged s (EvFetch url init') (global_fetch url init' (world s)).2)).
Proof. run. simpl. destruct (global_fetch _ _ _) as [[?|[?|?]] ?]; reflexivity. Qed.

(** [check] calls the transport exactly once, whatever happens next. *)
Lemma check_trace this action resource s r s1 :
  check this action resource s = (r, s1) →
  trace s1 = trace s ++ [EvFetch (check_url this) (check_init this action resource)]
  ∧ world s1 = (global_fetch (check_url this) (check_init this action resource) (world s)).2.
Proof.
  intros Hc. unfold check_url, check_init. run. crush; auto.
Qed.

(** No path through [check] ends in a [PolicyDeniedError]. *)
Lemma check_never_throws_PolicyDenied this action resource s e s1 :
  check this action resource s ≠ (Err (PolicyDeniedError e), s1).
Proof.
  intros Hc. run. crush.
Qed.

Lemma check_decision_shape this action resource s d s1 :
  check this action resource s = (Ok d, s1) →
  (PolicyDecision.allowed d = true ↔ PolicyDecision.decision d = allow)
  ∧ PolicyDecision.action d = action
  ∧ PolicyDecision.traceId d = traceId this.
Proof.
  intros Hc. run. crush; simpl; intuition congruence.
Qed.

(** [enforce] in terms of the outcome of [check]. *)
Lemma enforce_run this action resource s :
  enforce this action resource s =
    match check this action resource s with
    | (Ok d, s1) =>
        if PolicyDecision.allowed d then (Ok d, tick s1)
        else (Err (thrown (new_PolicyDeniedError
                {| opt_action := JStr action;
                   opt_policy := PolicyDecision.policy d;
                   opt_rule := PolicyDecision.rule d;
                   opt_reason := PolicyDecision.reason d |})), tick s1)
    | (Err e, s1) => (Err e, tick s1)
    end.
Proof.
  unfold enforce, await, bind, lift, throw, ret.
  destruct (check this action resource s) as [[d|e] s1]; [|reflexivity].
  destruct (PolicyDecision.allowed d); simpl; [reflexivity|].
  destruct (new_PolicyDeniedError _); reflexivity.
Qed.

(** [govern] in terms of the outcome of [enforce]. *)
Lemma govern_run {T} this action (fn : Callable T) resource s :
  govern this action fn resource s =
    match enforce this action resource s with
    | (Ok _, s1) =>
        (settle (fn (world s1)).1, logged (tick s1) EvFn (fn (world s1)).2)
    | (Err e, s1) => (Err e, tick s1)
    end.
Proof.
  unfold govern, await, bind, call, lift, ret, throw.
  destruct (enforce this action resource s) as [[d|e] s1]; [|reflexivity].
  simpl. destruct (fn (world s1)) as [[v|e|e] w]; reflexivity.
Qed.

Lemma count_events_app p (l1 l2 : list Event) :
  count_events p (l1 ++ l2) = (count_events p l1 + count_events p l2)%nat.
Proof.
  induction l1 as [|ev l1 IH]; simpl; [done|].
  destruct (p ev); simpl; by rewrite IH.
Qed.

Lemma check_fn_calls this action resource s r s1 :
  check this action resource s = (r, s1) → fn_calls s1 = fn_calls s.
Proof.
  intros Hc. apply check_trace in Hc as [Ht _].
  unfold fn_calls. rewrite Ht, count_events_app. simpl. lia.
Qed.

(** *** What [check] does with each kind of answer *)

Lemma check_transport_failure this action resource s e w :
  global_fetch (check_url this) (check_init this action resource) (world s) = (Failed e, w) →
  ∃ s1, check this action resource s = (Err (host_error e), s1).
Proof.
  unfold check_url, check_init. intros Hg. run. simpl. rewrite Hg.
  destruct e; simpl; eauto.
Qed.

Lemma check_401 this action resource s resp :
  gateway_answers this action resource s resp →
  Response.status resp = 401 →
  ∃ s1, check this action resource s
        = (Err (AuthenticationError "Invalid or expired token"), s1).
Proof.
  intros [w Hg] Hs. unfold check_url, check_init in Hg.
  run. simpl. rewrite Hg. simpl. rewrite Hs. simpl. eauto.
Qed.

Lemma check_429 this action resource s resp :
  gateway_answers this action resource s resp →
  Response.status resp = 429 →
  ∃ s1, check this action resource s = (Err (RateLimitError "Rate limit exceeded"), s1).
Proof.
  intros [w Hg] Hs. unfold check_url, check_init in Hg.
  run. simpl. rewrite Hg. simpl. rewrite Hs. simpl. eauto.
Qed.

(** [safeJson] never fails on a body that can be read: it yields the
    parsed value, or the empty object for an empty or unparsable text. *)
Lemma safeJson_run response text s :
  Response.text response = Resolved text →
  safeJson response s =
    (Ok (if truthy_str text then default (JObj ∅) (JSON_parse text) else JObj ∅),
     tick s).
Proof.
  intros Ht. run. rewrite Ht. simpl.
  destruct (truthy_str text); simpl; [|reflexivity].
  destruct (JSON_parse text); reflexivity.
Qed.

(** A 403 whose body reads as an object, an array or a primitive other
    than [null] becomes a deny decision filled from [policy], [rule] and
    [message]. *)
Lemma check_403_denies this action resource s resp text data :
  gateway_answers this action resource s resp →
  Response.status resp = 403 →
  Response.text resp = Resolved text →
  data = (if truthy_str text then default (JObj ∅) (JSON_parse text) else JObj ∅) →
  data ≠ JNull → data ≠ JUndefined →
  ∃ policy rule message s1,
    Get data "policy" = Ok policy ∧ Get data "rule" = Ok rule
    ∧ Get data "message" = Ok message
    ∧ check this action resource s =
        (Ok {| PolicyDecision.allowed := false;
               PolicyDecision.action := action;
               PolicyDecision.decision := deny;
               PolicyDecision.policy := policy;
               PolicyDecision.rule := rule;
               PolicyDecision.reason := message;
               PolicyDecision.traceId := traceId this |}, s1).
Proof.
  intros [w Hg] Hs Ht Hd Hnull Hundef. unfold check_url, check_init in Hg.
  assert (Hget : ∀ k, ∃ v, Get data k = Ok v)
    by (intros k; destruct data; simpl; eauto; done).
  destruct (Hget "policy") as [p Hp], (Hget "rule") as [r Hr], (Hget "message") as [m Hm].
  exists p, r, m. eexists. do 3 (split; [done|]).
  unfold check, try_catch, bind, await. rewrite fetch_run. simpl.
  rewrite Hg. simpl. rewrite Hs. simpl.
  rewrite (safeJson_run _ _ _ Ht), <- Hd. unfold lift. rewrite Hp, Hr, Hm.
  reflexivity.
Qed.

(** A 403 whose body parses to [null] makes [check] throw the
    [TypeError] of reading a property of [null]. *)
Lemma check_403_null_throws this action resource s resp text :
  gateway_answers this action resource s resp →
  Response.status resp = 403 →
  Response.text resp = Resolved text →
  truthy_str text = true →
  JSON_parse text = Some JNull →
  ∃ s1, check this action resource s
        = (Err (TypeError "Cannot read properties of null (reading 'policy')"), s1).
Proof.
  intros [w Hg] Hs Ht Hne Hp. unfold check_url, check_init in Hg.
  unfold check, try_catch, bind, await. rewrite fetch_run. simpl.
  rewrite Hg. simpl. rewrite Hs. simpl.
  rewrite (safeJson_run _ _ _ Ht), Hne, Hp. simpl. eauto.
Qed.

(** C2 (amended).  When the gateway answers the check with some status,
    [check] returns without throwing only for 403, with [allowed = false],
    or for a status below 400, with [allowed = true]; every status of 400
    or more other than 403 makes it throw. *)
Theorem check_returns_by_status this action resource s resp :
  gateway_answers this action resource s resp →
  (∀ d s', check this action resource s = (Ok d, s') →
     (Response.status resp = 403 ∧ PolicyDecision.allowed d = false)
     ∨ (Response.status resp < 400 ∧ PolicyDecision.allowed d = true))
  ∧ (400 ≤ Response.status resp → Response.status resp ≠ 403 →
     ∃ e s', check this action resource s = (Err e, s')).
Proof.
  intros [w Hg]. unfold check_url, check_init in Hg. split.
  - intros d s' Hc. run. simpl in Hc. rewrite Hg in Hc. simpl in Hc.
    destruct (Response.status resp =? 403) eqn:E403.
    + left. split; [by apply Z.eqb_eq|]. crush; reflexivity.
    + right. destruct (Response.status resp >=? 400) eqn:E400.
      * exfalso. crush.
      * split; [rewrite Z.geb_leb in E400; by apply Z.leb_gt|]. crush; reflexivity.
  - intros Hge Hne. run. simpl. rewrite Hg. simpl.
    destruct (Response.status resp =? 403) eqn:E403;
      [apply Z.eqb_eq in E403; contradiction|].
    destruct (Response.status resp =? 401); simpl; [eauto|].
    destruct (Response.status resp =? 429); simpl; [eauto|].
    destruct (Response.status resp >=? 400) eqn:E400.
    + destruct (Response.text resp) as [t|[m|m]]; simpl; eauto.
    + rewrite Z.geb_leb in E400. apply Z.leb_gt in E400. lia.
Qed.

(** C9.  Every decision returned by [check], and so every decision
    returned by [enforce] (the one [govern] relies on), has
    [allowed = true] exactly when [decision = allow], carries the checked
    action, and carries the trace id of the client, whatever the response
    was. *)
Theorem check_decision_invariant this action resource s d :
  (∀ s1, check this action resource s = (Ok d, s1) →
     (PolicyDecision.allowed d = true ↔ PolicyDecision.decision d = allow)
     ∧ PolicyDecision.action d = action
     ∧ PolicyDecision.traceId d = traceId this)
  ∧ (∀ s1, enforce this action resource s = (Ok d, s1) →
     (PolicyDecision.allowed d = true ↔ PolicyDecision.decision d = allow)
     ∧ PolicyDecision.action d = action
     ∧ PolicyDecision.traceId d = traceId this).
Proof.
  split.
  - intros s1. apply check_decision_shape.
  - intros s1. rewrite enforce_run.
    destruct (check this action resource s) as [[d'|e] s'] eqn:Hc; [|discriminate].
    destruct (PolicyDecision.allowed d'); [|discriminate].
    intros [= -> <-]. by eapply check_decision_shape.
Qed.

(** *** [enforce] and [govern] after a decision of [check] *)

Lemma enforce_of_denial this action resource s d s1 :
  check this action resource s = (Ok d, s1) →
  PolicyDecision.allowed d = false →
  enforce this action resource s = (Err (thrown (denial_error d)), tick s1).
Proof.
  intros Hc Ha. rewrite enforce_run, Hc, Ha. unfold denial_error.
  by destruct (check_decision_shape _ _ _ _ _ _ Hc) as (_ & -> & _).
Qed.

Lemma enforce_of_allowance this action resource s d s1 :
  check this action resource s = (Ok d, s1) →
  PolicyDecision.allowed d = true →
  enforce this action resource s = (Ok d, tick s1).
Proof. intros Hc Ha. by rewrite enforce_run, Hc, Ha. Qed.

Lemma enforce_PolicyDenied_inv this action resource s e s2 :
  enforce this action resource s = (Err (PolicyDeniedError e), s2) →
  ∃ d s1, check this action resource s = (Ok d, s1)
          ∧ PolicyDecision.allowed d = false
          ∧ denial_error d = Ok e
          ∧ s2 = tick s1.
Proof.
  intros He.
  destruct (check this action resource s) as [[d|e'] s1] eqn:Hc.
  - destruct (PolicyDecision.allowed d) eqn:Ha.
    + rewrite (enforce_of_allowance _ _ _ _ _ _ Hc Ha) in He. discriminate.
    + rewrite (enforce_of_denial _ _ _ _ _ _ Hc Ha) in He.
      exists d, s1. repeat split; [done| |congruence].
      destruct (denial_error d) as [e0|e0] eqn:Hd; simpl in He; [congruence|].
      apply new_PolicyDeniedError_Err in Hd. congruence.
  - rewrite enforce_run, Hc in He. injection He as -> <-.
    by apply check_never_throws_PolicyDenied in Hc.
Qed.

Lemma govern_of_denial {T} this action (fn : Callable T) resource s d s1 :
  check this action resource s = (Ok d, s1) →
  PolicyDecision.allowed d = false →
  ∃ s2, govern this action fn resource s = (Err (thrown (denial_error d)), s2)
        ∧ fn_calls s2 = fn_calls s
        ∧ world s2 = world s1.
Proof.
  intros Hc Ha. rewrite govern_run, (enforce_of_denial _ _ _ _ _ _ Hc Ha).
  eexists; split; [reflexivity|]. split; [|done].
  by apply check_fn_calls in Hc.
Qed.

Lemma govern_of_allowance {T} this action (fn : Callable T) resource s d s1 :
  check this action resource s = (Ok d, s1) →
  PolicyDecision.allowed d = true →
  ∃ s2, govern this action fn resource s = (settle (fn (world s1)).1, s2)
        ∧ fn_calls s2 = S (fn_calls s)
        ∧ world s2 = (fn (world s1)).2.
Proof.
  intros Hc Ha. rewrite govern_run, (enforce_of_allowance _ _ _ _ _ _ Hc Ha).
  eexists; split; [reflexivity|]. split; [|done].
  apply check_fn_calls in Hc. unfold fn_calls in *. simpl.
  rewrite count_events_app. simpl. lia.
Qed.

(** The error of a denial that names nothing. *)
Lemma denial_error_bare this action :
  denial_error (bare_denial this action) =
    Ok {| pd_message := "Action '" +:+ action +:+ "' denied: Access denied by policy";
          pd_action := JStr action;
          pd_policy := JUndefined;
          pd_rule := JUndefined;
          pd_reason := JStr "Access denied by policy" |}.
Proof.
  unfold denial_error, new_PolicyDeniedError. simpl. by rewrite !append_assoc.
Qed.

(** C10.  On a 403 whose body is empty or is not valid JSON, [check]
    returns the deny decision with policy, rule and reason unset;
    [enforce] and [govern] then reject with the [PolicyDeniedError] of that
    decision, not with a parse error, and [fn] is not called. *)
Theorem check_denies_on_unparsable_403 this action resource s resp text :
  gateway_answers this action resource s resp →
  Response.status resp = 403 →
  Response.text resp = Resolved text →
  text = "" ∨ JSON_parse text = None →
  ∃ s1 e,
    denial_error (bare_denial this action) = Ok e
    ∧ check this action resource s = (Ok (bare_denial this action), s1)
    ∧ enforce this action resource s = (Err (PolicyDeniedError e), tick s1)
    ∧ ∀ T (fn : Callable T), ∃ s2,
        govern this action fn resource s = (Err (PolicyDeniedError e), s2)
        ∧ fn_calls s2 = fn_calls s.
Proof.
  intros [w Hg] H403 Ht Hbad. unfold check_url, check_init in Hg.
  assert (Hc : ∃ s1, check this action resource s = (Ok (bare_denial this action), s1)).
  { run. simpl. rewrite Hg. simpl. rewrite H403. simpl. rewrite Ht. simpl.
    destruct Hbad as [-> | Hp]; simpl; [eauto|].
    destruct (negb (truthy_str text)); simpl; [eauto|].
    rewrite Hp. simpl. eauto. }
  destruct Hc as [s1 Hc]. exists s1. eexists.
  split; [apply denial_error_bare|]. split; [done|]. split.
  - rewrite (enforce_of_denial _ _ _ _ _ _ Hc eq_refl). by rewrite denial_error_bare.
  - intros T fn.
    destruct (govern_of_denial this action fn resource s _ _ Hc eq_refl)
      as (s2 & -> & Hn & _).
    rewrite denial_error_bare. eauto.
Qed.

End Protocol.

Section IndexKeys.

Lemma pretty_N_char_not_X (x : N) : pretty_N_char x ≠ "X"%char.
Proof. unfold pretty_N_char. by repeat case_match. Qed.

Lemma pretty_N_go_not_X_headed (x : N) (s : string) :
  not_X_headed s → not_X_headed (pretty_N_go x s).
Proof.
  revert s. induction (N.lt_wf_0 x) as [x _ IH]; intros s Hs.
  destruct (decide (x = 0)%N) as [->|Hx]; [by rewrite pretty_N_go_0|].
  rewrite pretty_N_go_step by lia. apply IH; [apply N.div_lt; lia|].
  intros rest [= Hc _]. by apply pretty_N_char_not_X in Hc.
Qed.

Lemma pretty_nat_not_X_headed (i : nat) : not_X_headed (pretty i).
Proof.
  unfold pretty, pretty_nat, pretty, pretty_N.
  destruct (decide (N.of_nat i = 0)%N); [by intros rest|].
  apply pretty_N_go_not_X_headed. by intros rest.
Qed.

Lemma pretty_N_char_not_underscore (x : N) : pretty_N_char x ≠ "_"%char.
Proof. unfold pretty_N_char. by repeat case_match. Qed.

Lemma pretty_N_go_not_underscore_headed (x : N) (s : string) :
  (∀ rest, s ≠ String "_" rest) → ∀ rest, pretty_N_go x s ≠ String "_" rest.
Proof.
  revert s. induction (N.lt_wf_0 x) as [x _ IH]; intros s Hs.
  destruct (decide (x = 0)%N) as [->|Hx]; [by rewrite pretty_N_go_0|].
  rewrite pretty_N_go_step by lia. apply IH; [apply N.div_lt; lia|].
  intros rest [= Hc _]. by apply pretty_N_char_not_underscore in Hc.
Qed.

(** No decimal index is the name [__proto__]. *)
Lemma pretty_nat_not_proto (i : nat) : pretty i ≠ "__proto__".
Proof.
  unfold pretty, pretty_nat, pretty, pretty_N.
  destruct (decide (N.of_nat i = 0)%N); [done|].
  apply pretty_N_go_not_underscore_headed. by intros rest.
Qed.

End IndexKeys.

Section MergedRecords.
Context `{JsNumbers}.

Lemma array_props_snoc (l : list JsValue) (v : JsValue) :
  array_props (l ++ [v]) = <[ pretty (length l) := v ]> (array_props l).
Proof.
  unfold array_props, Object_fromEntries. rewrite imap_app, foldl_app. simpl.
  by rewrite Nat.add_0_r.
Qed.

Lemma array_props_lookup (l : list JsValue) (k : string) (v : JsValue) :
  array_props l !! k = Some v ↔ ∃ i : nat, k = pretty i ∧ l !! i = Some v.
Proof.
  induction l as [|x l IH] using rev_ind.
  - split; [done|]. by intros (i & _ & ?).
  - rewrite array_props_snoc. destruct (decide (k = pretty (length l))) as [->|Hne].
    + rewrite lookup_insert_eq. split.
      * intros [= ->]. exists (length l). split; [done|].
        by rewrite lookup_app_r, Nat.sub_diag by lia.
      * intros (i & Hi%(inj pretty) & Hl). subst i.
        rewrite lookup_app_r, Nat.sub_diag in Hl by lia. by simplify_eq/=.
    + rewrite lookup_insert_ne by done. rewrite IH. split.
      * intros (i & -> & Hl). exists i. split; [done|].
        by rewrite lookup_app_l by (by eapply lookup_lt_Some).
      * intros (i & -> & Hl). exists i. split; [done|].
        apply lookup_app_Some in Hl as [Hl|[Hge Hl]]; [done|].
        apply list_lookup_singleton_Some in Hl as [Hi ->].
        destruct Hne. f_equal. lia.
Qed.




End MergedRecords.

Section Passthrough.
Context `{Host}.
Import MeshGuardClient.

(** [request] calls the transport once, with the merged header record. *)
Lemma request_trace this method path action init s :
  trace (request this method path action init s).2 =
    trace s ++ [EvFetch (gatewayUrl this +:+ "/proxy/" +:+ strip_leading_slashes path)
                  {| RequestInit.method := Some method;
                     RequestInit.headers := Some (HI_Record (request_headers this action init));
                     RequestInit.body := RequestInit.body init;
                     RequestInit.signal := Some (TimeoutSignal (timeout this)) |}].
Proof.
  unfold request. run. simpl. crush; reflexivity.
Qed.

Lemma own_headers_trace this action :
  (<[ "X-MeshGuard-Action" := JStr action ]> (headers this true))
    !! "X-MeshGuard-Trace-ID" = Some (JStr (traceId this)).
Proof.
  unfold headers. destruct (agentToken this) as [tok|];
    [destruct (true && truthy_str tok)|]; by simplify_map_eq.
Qed.

Lemma own_headers_action this action :
  (<[ "X-MeshGuard-Action" := JStr action ]> (headers this true))
    !! "X-MeshGuard-Action" = Some (JStr action).
Proof. by simplify_map_eq. Qed.

(** After [Object.assign(target, source)] a property of the target holds
    the source's value when the source has that property. *)
Lemma lookup_Object_assign (target source : gmap string JsValue) k v :
  target !! k = Some v →
  k ≠ "__proto__" →
  Object_assign target source !! k = Some (default v (source !! k)).
Proof.
  intros Ht Hk. unfold Object_assign.
  assert (Hd : base.delete "__proto__" source !! k = source !! k)
    by (by apply lookup_delete_ne).
  destruct (source !! k) as [v'|] eqn:Hs; simpl.
  - by apply lookup_union_Some_l.
  - by rewrite lookup_union_r.
Qed.


End Passthrough.

Section Admin.
Context `{Host}.
Import MeshGuardClient.

(** A client constructed without [adminToken], in an environment that
    does not set [MESHGUARD_ADMIN_TOKEN], has no admin token. *)
Lemma new_without_adminToken env uuid options :
  MeshGuardOptions.adminToken options = None →
  MESHGUARD_ADMIN_TOKEN env = None →
  adminToken (new env uuid options) = None.
Proof. intros Ho He. unfold new. simpl. by rewrite Ho. Qed.

Lemma adminHeaders_without_token this :
  truthy_opt (adminToken this) = false →
  adminHeaders this = Err (AuthenticationError "Admin token required for this operation").
Proof.
  unfold adminHeaders, truthy_opt. intros Htok.
  destruct (adminToken this) as [tok|]; [by rewrite Htok|done].
Qed.

(** C7.  On a client without an admin token (absent, or the empty string)
    each of the five admin operations rejects with [AuthenticationError]
    and leaves the state as it found it: no call of the transport has been
    recorded and no suspension point has been passed. *)
Theorem admin_requires_token this s :
  truthy_opt (adminToken this) = false →
  let err := AuthenticationError "Admin token required for this operation" in
  listAgents this s = (Err err, s)
  ∧ (∀ options, createAgent this options s = (Err err, s))
  ∧ (∀ agentId, revokeAgent this agentId s = (Err err, s))
  ∧ listPolicies this s = (Err err, s)
  ∧ (∀ options, getAuditLog this options s = (Err err, s)).
Proof.
  intros Htok. apply adminHeaders_without_token in Htok.
  unfold listAgents, createAgent, revokeAgent, listPolicies, getAuditLog, bind, lift.
  rewrite Htok. simpl. unfold throw. repeat split.
Qed.

End Admin.

Section ToolGovernance.
Context `{Host}.

Lemma governedTool_deny_contract action client tool onDeny prop args s :
  deny_contract client action onDeny args
    (governedTool action client tool onDeny prop args) s.
Proof.
  unfold deny_contract, governedTool, try_catch, await, bind, on_denied, call, lift, throw.
  repeat split.
  - intros e s1 handler -> ->. simpl.
    destruct (handler e args (world s1)) as [[v|e'|e'] w]; reflexivity.
  - intros e s1 -> ->. reflexivity.
  - intros err s1 -> Hne. destruct err; try discriminate; by destruct onDeny.
Qed.

(** [GovernedTool.invoke] is the function the proxy hands out for
    [invoke], applied to [input] and [config]. *)
Lemma GovernedTool_invoke_unfold (this : GovernedTool.t) input config :
  GovernedTool.invoke this input config =
    governedTool (GovernedTool.action this) (GovernedTool.client this)
      (GovernedTool.tool this) (GovernedTool.onDeny this) m_invoke [input; config].
Proof. reflexivity. Qed.

(** C6.  Both wrappers, the proxy of [governedTool] (for [invoke] and for
    [call]) and [GovernedTool.invoke] (which [GovernedTool.call] hands
    over to), keep the deny contract: when
    [enforce] raises [PolicyDeniedError] and a handler was supplied, the
    handler is called with that error and the original arguments and the
    invocation settles to what the handler settles to; without a handler
    the [PolicyDeniedError] propagates; any other error of [enforce]
    propagates, handler or not. *)
Theorem governed_tool_deny_handling s :
  (∀ action client tool onDeny prop args,
     deny_contract client action onDeny args
       (governedTool action client tool onDeny prop args) s)
  ∧ (∀ (this : GovernedTool.t) input config,
     deny_contract (GovernedTool.client this) (GovernedTool.action this)
       (GovernedTool.onDeny this) [input; config]
       (GovernedTool.invoke this input config) s
     ∧ GovernedTool.call this input config = GovernedTool.invoke this input config).
Proof.
  split.
  - intros. apply governedTool_deny_contract.
  - intros. split; [|reflexivity].
    rewrite GovernedTool_invoke_unfold. apply governedTool_deny_contract.
Qed.

End ToolGovernance.

Section ErrorMessages.
Context `{JsNumbers}.

(** C8 (amended).  The message of a [PolicyDeniedError] built from an
    action, an optional policy, an optional rule and an optional reason is
    ["Action '{action}' denied"], then [" by policy '{policy}'"] exactly
    when the policy is present and not empty, then [" (rule: {rule})"]
    exactly when the rule is present and not empty, then [": {reason}"]
    with the reason defaulting to ["Access denied by policy"]. *)
Theorem PolicyDeniedError_message action policy rule reason :
  ∃ e, PolicyDeniedError_of action policy rule reason = Ok e
       ∧ pd_message e = composed_message action policy rule reason.
Proof.
  unfold PolicyDeniedError_of, new_PolicyDeniedError, composed_message, truthy_str,
    Result_bind. simpl.
  assert (Hr : ToString match js_of_opt reason with
                        | JUndefined => JStr "Access denied by policy"
                        | r => r
                        end = Ok (default "Access denied by policy" reason))
    by (by destruct reason).
  rewrite Hr.
  destruct policy as [p|], rule as [r|]; simpl;
    repeat match goal with |- context [negb (String.eqb ?x "")] =>
      destruct (negb (String.eqb x "")) end;
    (eexists; split; [reflexivity|]); simpl;
    rewrite ?append_assoc; simpl; rewrite ?append_assoc; reflexivity.
Qed.

End ErrorMessages.

(** * Further properties of the code *)

Section StringFacts.

Lemma append_empty_r (a : string) : a +:+ "" = a.
Proof.
  induction a as [|ch a IH]; [done|].
  change (String ch (a +:+ "") = String ch a). by rewrite IH.
Qed.

Lemma append_cons ch (a b : string) : String ch a +:+ b = String ch (a +:+ b).
Proof. reflexivity. Qed.

Lemma rev_app_spec (a b : string) : String.rev_app a b = String.rev a +:+ b.
Proof.
  revert b. induction a as [|ch a IH]; intros b; [done|].
  unfold String.rev. simpl. rewrite (IH (String ch b)), (IH (String ch "")).
  by rewrite append_assoc.
Qed.

Lemma rev_cons ch (a : string) : String.rev (String ch a) = String.rev a +:+ String ch "".
Proof. unfold String.rev at 1. simpl. apply rev_app_spec. Qed.

Lemma rev_append (a b : string) : String.rev (a +:+ b) = String.rev b +:+ String.rev a.
Proof.
  induction a as [|ch a IH].
  - by rewrite append_empty_r.
  - rewrite append_cons, !rev_cons, IH. by rewrite append_assoc.
Qed.

Lemma rev_involutive (a : string) : String.rev (String.rev a) = a.
Proof.
  induction a as [|ch a IH]; [done|].
  rewrite rev_cons, rev_append, IH. reflexivity.
Qed.

Lemma slashes_snoc n : slashes n +:+ "/" = String "/" (slashes n).
Proof.
  induction n as [|n IH]; [done|].
  simpl. rewrite append_cons. by rewrite IH.
Qed.

Lemma rev_slashes n : String.rev (slashes n) = slashes n.
Proof.
  induction n as [|n IH]; [done|].
  simpl. rewrite rev_cons, IH. apply slashes_snoc.
Qed.

Lemma strip_leading_slashes_split (s : string) :
  ∃ n, s = slashes n +:+ strip_leading_slashes s
       ∧ ¬ starts_with_slash (strip_leading_slashes s).
Proof.
  induction s as [|ch s (n & Hs & Hn)].
  - exists O. split; [done|]. by intros [rest ?].
  - destruct (decide (ch = "/"%char)) as [->|Hne].
    + exists (S n). split; [|done].
      change (String "/" s = String "/" (slashes n +:+ strip_leading_slashes s)).
      by f_equal.
    + exists O. assert (Hid : strip_leading_slashes (String ch s) = String ch s).
      { simpl. destruct ch as [[] [] [] [] [] [] [] []]; try reflexivity. by destruct Hne. }
      rewrite Hid. split; [done|]. intros [rest [= ? ?]]. done.
Qed.

Lemma strip_leading_slashes_fixed (s : string) :
  ¬ starts_with_slash s → strip_leading_slashes s = s.
Proof.
  destruct s as [|ch s]; [done|]. intros Hn. simpl.
  destruct ch as [[] [] [] [] [] [] [] []]; try reflexivity.
  destruct Hn. by eexists.
Qed.

Lemma strip_leading_slashes_slashes n (s : string) :
  strip_leading_slashes (slashes n +:+ s) = strip_leading_slashes s.
Proof.
  induction n as [|n IH]; [done|].
  change (strip_leading_slashes (String "/" (slashes n +:+ s)) = strip_leading_slashes s).
  exact IH.
Qed.

Lemma strip_trailing_slashes_split (s : string) :
  ∃ n, s = strip_trailing_slashes s +:+ slashes n
       ∧ ¬ ends_with_slash (strip_trailing_slashes s).
Proof.
  unfold strip_trailing_slashes.
  destruct (strip_leading_slashes_split (String.rev s)) as (n & Hs & Hn).
  exists n. split.
  - rewrite <- (rev_involutive s) at 1. rewrite Hs at 1.
    by rewrite rev_append, rev_slashes.
  - intros [front Hf]. apply Hn. exists (String.rev front).
    rewrite <- (rev_involutive (strip_leading_slashes (String.rev s))), Hf.
    by rewrite rev_append.
Qed.

Lemma strip_trailing_slashes_slashes n (s : string) :
  strip_trailing_slashes (s +:+ slashes n) = strip_trailing_slashes s.
Proof.
  unfold strip_trailing_slashes.
  by rewrite rev_append, rev_slashes, strip_leading_slashes_slashes.
Qed.

Lemma strip_trailing_slashes_fixed (s : string) :
  ¬ ends_with_slash s → strip_trailing_slashes s = s.
Proof.
  intros Hn. unfold strip_trailing_slashes.
  rewrite strip_leading_slashes_fixed; [apply rev_involutive|].
  intros [rest Hr]. apply Hn. exists (String.rev rest).
  rewrite <- (rev_involutive s), Hr. by rewrite rev_cons.
Qed.

End StringFacts.

(** Decide the status tests of [handleResponse] from linear facts. *)
Ltac status_tests :=
  repeat match goal with
  | |- context [(?a =? ?b)] =>
      destruct (Z.eqb_spec a b); try lia; simpl
  | |- context [(?a >=? ?b)] =>
      rewrite (Z.geb_leb a b); destruct (Z.leb_spec b a); try lia; simpl
  end.

Section Responses.
Context `{Host}.
Import MeshGuardClient.

Lemma safeJson_value response text s :
  Response.text response = Resolved text →
  safeJson response s = (Ok (body_value text), tick s).
Proof. apply safeJson_run. Qed.

Lemma safeJson_unreadable response e s :
  Response.text response = Failed e →
  safeJson response s = (Err (host_error e), tick s).
Proof. intros Ht. run. rewrite Ht. by destruct e. Qed.

Lemma handleResponse_below_400 response s :
  Response.status response < 400 →
  handleResponse response s = safeJson response s.
Proof. intros Hs. unfold handleResponse, throw. status_tests. reflexivity. Qed.

Lemma handleResponse_401 response s :
  Response.status response = 401 →
  handleResponse response s = (Err (AuthenticationError "Invalid or expired token"), s).
Proof. intros Hs. unfold handleResponse, throw. rewrite Hs. reflexivity. Qed.

Lemma handleResponse_429 response s :
  Response.status response = 429 →
  handleResponse response s = (Err (RateLimitError "Rate limit exceeded"), s).
Proof. intros Hs. unfold handleResponse, throw. rewrite Hs. reflexivity. Qed.

Lemma handleResponse_other response text s :
  400 ≤ Response.status response →
  Response.status response ≠ 401 →
  Response.status response ≠ 403 →
  Response.status response ≠ 429 →
  Response.text response = Resolved text →
  handleResponse response s =
    (Err (MeshGuardError ("Request failed: " +:+ pretty (Response.status response)
                          +:+ " " +:+ text)), tick s).
Proof.
  intros ? ? ? ? Ht. unfold handleResponse. status_tests.
  unfold bind, await, Response_text, lift, settled, ret, throw. by rewrite Ht.
Qed.

Lemma handleResponse_403 response text m s :
  Response.status response = 403 →
  Response.text response = Resolved text →
  body_value text = JObj m →
  handleResponse response s =
    (Err (thrown (new_PolicyDeniedError
       {| opt_action := nullish (default JUndefined (m !! "action")) (JStr "unknown");
          opt_policy := default JUndefined (m !! "policy");
          opt_rule := default JUndefined (m !! "rule");
          opt_reason := nullish (default JUndefined (m !! "message"))
                          (JStr "Access denied by policy") |})),
     tick (tick s)).
Proof.
  intros Hs Ht Hm. unfold handleResponse. rewrite Hs. simpl.
  unfold bind, await. rewrite (safeJson_value _ _ _ Ht), Hm. simpl.
  by destruct (new_PolicyDeniedError _).
Qed.

Lemma handleResponse_Ok_inv response s v s1 :
  handleResponse response s = (Ok v, s1) →
  Response.status response < 400
  ∧ ∃ text, Response.text response = Resolved text ∧ v = body_value text ∧ s1 = tick s.
Proof.
  intros Hr. destruct (Z.lt_ge_cases (Response.status response) 400) as [Hlt|Hge].
  - split; [done|]. rewrite handleResponse_below_400 in Hr by done.
    destruct (Response.text response) as [text|e] eqn:Ht.
    + rewrite (safeJson_value _ _ _ Ht) in Hr. injection Hr as <- <-. eauto.
    + rewrite (safeJson_unreadable _ _ _ Ht) in Hr. discriminate.
  - exfalso. run. crush; lia.
Qed.

(** X1.  [handleResponse] returns a value exactly when the status is below
    400 and the body can be read; the value is the parsed body, or the
    empty object when the text is empty or does not parse. *)
Theorem handleResponse_succeeds_iff response s v s1 :
  handleResponse response s = (Ok v, s1) ↔
  Response.status response < 400
  ∧ ∃ text, Response.text response = Resolved text ∧ v = body_value text ∧ s1 = tick s.
Proof.
  split; [apply handleResponse_Ok_inv|].
  intros (Hlt & text & Ht & -> & ->).
  rewrite handleResponse_below_400 by done. by apply safeJson_value.
Qed.

End Responses.

Section Requests.
Context `{Host}.
Import MeshGuardClient.

(** The bearer header of a client. *)
Lemma headers_Authorization this :
  headers this true !! "Authorization" =
    match agentToken this with
    | Some tok => if truthy_str tok then Some (JStr ("Bearer " +:+ tok)) else None
    | None => None
    end.
Proof.
  unfold headers. destruct (agentToken this) as [tok|]; [|by simplify_map_eq].
  simpl. destruct (truthy_str tok); by simplify_map_eq.
Qed.

Lemma headers_dom this :
  dom (headers this true) ⊆ ({[ "X-MeshGuard-Trace-ID"; "Authorization" ]} : gset string).
Proof.
  unfold headers. destruct (agentToken this) as [tok|]; simpl;
    [destruct (truthy_str tok)|]; set_solver.
Qed.

(** X7.  [check] sends one [GET] to [{gatewayUrl}/proxy/check] carrying the
    trace id, the action, the bearer token when the agent token is not
    empty, the resource when it is not empty, and no other header. *)
Theorem check_sends this action resource s :
  ∃ h,
    sent_since s (check this action resource s).2
      [EvFetch (gatewayUrl this +:+ "/proxy/check")
         {| RequestInit.method := Some "GET";
            RequestInit.headers := Some (HI_Record h);
            RequestInit.body := None;
            RequestInit.signal := Some (TimeoutSignal (timeout this)) |}]
    ∧ h !! "X-MeshGuard-Trace-ID" = Some (JStr (traceId this))
    ∧ h !! "X-MeshGuard-Action" = Some (JStr action)
    ∧ h !! "Authorization" =
        match agentToken this with
        | Some tok => if truthy_str tok then Some (JStr ("Bearer " +:+ tok)) else None
        | None => None
        end
    ∧ h !! "X-MeshGuard-Resource" =
        match resource with
        | Some r => if truthy_str r then Some (JStr r) else None
        | None => None
        end
    ∧ dom h ⊆ ({[ "X-MeshGuard-Trace-ID"; "Authorization";
                  "X-MeshGuard-Action"; "X-MeshGuard-Resource" ]} : gset string).
Proof.
  exists (check_headers this action resource). split.
  { unfold sent_since.
    destruct (check this action resource s) as [r s1] eqn:Hc.
    apply check_trace in Hc as [Ht _]. exact Ht. }
  pose proof (headers_Authorization this) as Hauth.
  pose proof (headers_dom this) as Hdom.
  assert (Htrace : headers this true !! "X-MeshGuard-Trace-ID" = Some (JStr (traceId this))).
  { unfold headers. destruct (agentToken this) as [tok|]; simpl;
      [destruct (truthy_str tok)|]; by simplify_map_eq. }
  assert (Hres : headers this true !! "X-MeshGuard-Resource" = None).
  { apply not_elem_of_dom. set_solver. }
  unfold check_headers.
  destruct resource as [r|]; [destruct (truthy_str r)|];
    repeat split; simplify_map_eq; try done; rewrite ?dom_insert; set_solver.
Qed.


(** [request] in terms of the transport's answer and [handleResponse]. *)
Lemma request_run this method path action init s :
  request this method path action init s =
    let url := gatewayUrl this +:+ "/proxy/" +:+ strip_leading_slashes path in
    let init' := {| RequestInit.method := Some method;
                    RequestInit.headers := Some (HI_Record (request_headers this action init));
                    RequestInit.body := RequestInit.body init;
                    RequestInit.signal := Some (TimeoutSignal (timeout this)) |} in
    match global_fetch url init' (world s) with
    | (Failed e, w) => (Err (host_error e), tick (tick (logged s (EvFetch url init') w)))
    | (Resolved resp, w) =>
        match handleResponse resp (tick (tick (logged s (EvFetch url init') w))) with
        | (Ok _, s2) => (Ok (Response_consumed resp), tick s2)
        | (Err e, s2) => (Err e, tick s2)
        end
    end.
Proof.
  unfold request, bind, await. rewrite fetch_run. simpl.
  destruct (global_fetch _ _ _) as [[resp|e] w]; simpl; [|reflexivity].
  destruct (handleResponse resp _) as [[v|e] s2]; reflexivity.
Qed.

(** X3.  When the transport answers, [request] returns a response exactly
    when that response has a status below 400 and a readable body.  The
    response returned is the transport's after [handleResponse] has read
    it: it has the same status, and when it has a body, that body is used
    and its [text()] rejects with a [TypeError]. *)
Theorem request_returns_iff this method path action init s resp w :
  global_fetch (gatewayUrl this +:+ "/proxy/" +:+ strip_leading_slashes path)
    {| RequestInit.method := Some method;
       RequestInit.headers := Some (HI_Record (request_headers this action init));
       RequestInit.body := RequestInit.body init;
       RequestInit.signal := Some (TimeoutSignal (timeout this)) |} (world s)
    = (Resolved resp, w) →
  (∀ r, (∃ s1, request this method path action init s = (Ok r, s1)) ↔
        r = Response_consumed resp ∧ Response.status resp < 400
        ∧ ∃ text, Response.text resp = Resolved text)
  ∧ Response.status (Response_consumed resp) = Response.status resp
  ∧ (Response.has_body resp = true →
     ∃ message, Response_text (Response_consumed resp) s = (Err (TypeError message), s))
  ∧ (Response.has_body resp = false → Response_consumed resp = resp).
Proof.
  intros Hg. unfold Response_consumed.
  split; [|split; [by destruct (Response.has_body resp)|split; intros ->; [by eexists|done]]].
  intros r. rewrite request_run. simpl. rewrite Hg. split.
  - intros [s1 Hr].
    destruct (handleResponse resp _) as [[v|e] s2] eqn:Hh; [|discriminate].
    injection Hr as <- <-. apply handleResponse_Ok_inv in Hh as (? & text & ? & _).
    eauto.
  - intros (-> & Hlt & text & Ht).
    rewrite handleResponse_below_400, (safeJson_value _ _ _ Ht) by done. eauto.
Qed.

(** X4.  The same 403 body gives two different errors.  [enforce] throws
    what [new PolicyDeniedError] makes of the action that was asked for
    and of the body's [policy], [rule] and [message]; [request] throws what
    it makes of the body's [action], or ["unknown"], and of the body's
    [message], or the default reason when that is [undefined] or [null].
    An error that is constructed carries these options, its reason
    defaulted when [undefined] only; when a field does not convert to
    text, the [TypeError] of the conversion is thrown in its place. *)
Theorem denial_errors_of_enforce_and_request this method path action init resource s text m :
  body_value text = JObj m →
  let field k := default JUndefined (m !! k) in
  (∀ resp, gateway_answers this action resource s resp →
     Response.status resp = 403 → Response.text resp = Resolved text →
     ∃ s1, enforce this action resource s =
       (Err (thrown (new_PolicyDeniedError
          {| opt_action := JStr action;
             opt_policy := field "policy";
             opt_rule := field "rule";
             opt_reason := field "message" |})), s1))
  ∧ (∀ resp w,
     global_fetch (gatewayUrl this +:+ "/proxy/" +:+ strip_leading_slashes path)
       {| RequestInit.method := Some method;
          RequestInit.headers := Some (HI_Record (request_headers this action init));
          RequestInit.body := RequestInit.body init;
          RequestInit.signal := Some (TimeoutSignal (timeout this)) |} (world s)
       = (Resolved resp, w) →
     Response.status resp = 403 → Response.text resp = Resolved text →
     ∃ s1, request this method path action init s =
       (Err (thrown (new_PolicyDeniedError
          {| opt_action := nullish (field "action") (JStr "unknown");
             opt_policy := field "policy";
             opt_rule := field "rule";
             opt_reason := nullish (field "message") (JStr "Access denied by policy") |})),
        s1))
  ∧ (∀ options e, new_PolicyDeniedError options = Ok e →
       thrown (new_PolicyDeniedError options) = PolicyDeniedError e
       ∧ pd_action e = opt_action options
       ∧ pd_policy e = opt_policy options
       ∧ pd_rule e = opt_rule options
       ∧ pd_reason e = match opt_reason options with
                       | JUndefined => JStr "Access denied by policy"
                       | r => r
                       end)
  ∧ (∀ options e, new_PolicyDeniedError options = Err e →
       thrown (new_PolicyDeniedError options)
         = TypeError "Cannot convert object to primitive value").
Proof.
  intros Hm field. split; [|split; [|split]].
  - intros resp Hg Hs Ht.
    destruct (check_403_denies this action resource s resp text (JObj m) Hg Hs Ht)
      as (p & r & msg & s1 & Hp & Hr & Hmsg & Hc); [by rewrite <- Hm|done..|].
    simpl in Hp, Hr, Hmsg. injection Hp as <-. injection Hr as <-. injection Hmsg as <-.
    eexists. by rewrite (enforce_of_denial _ _ _ _ _ _ Hc).
  - intros resp w Hg Hs Ht. rewrite request_run. simpl. rewrite Hg.
    rewrite (handleResponse_403 _ _ _ _ Hs Ht Hm). eauto.
  - intros options e He. split; [by rewrite He|].
    by apply new_PolicyDeniedError_fields.
  - intros options e He. rewrite He. simpl. by apply new_PolicyDeniedError_Err in He.
Qed.

(** X5.  [request] hands the transport one request: its method is the
    [method] argument whatever [init.method] says, its signal is the
    timeout signal whatever [init.signal] says, its body is the caller's,
    and its path is the given one without its leading slashes. *)
Theorem request_sends this method path action init s :
  ∃ init',
    sent_since s (request this method path action init s).2
      [EvFetch (gatewayUrl this +:+ "/proxy/" +:+ strip_leading_slashes path) init']
    ∧ RequestInit.method init' = Some method
    ∧ RequestInit.signal init' = Some (TimeoutSignal (timeout this))
    ∧ RequestInit.body init' = RequestInit.body init
    ∧ ¬ starts_with_slash (strip_leading_slashes path)
    ∧ ∃ n, path = slashes n +:+ strip_leading_slashes path.
Proof.
  eexists. split; [apply request_trace|]. do 3 (split; [reflexivity|]).
  destruct (strip_leading_slashes_split path) as (n & Hp & Hn). eauto.
Qed.

(** X8.  [check] rejects only with [AuthenticationError "Invalid or expired
    token"], [RateLimitError "Rate limit exceeded"], a [MeshGuardError], a
    [TypeError] or an [AbortError]: never with [PolicyDeniedError], never
    with [SyntaxError]. *)
Theorem check_rejection_kinds this action resource s e s1 :
  check this action resource s = (Err e, s1) →
  match e with
  | AuthenticationError m => m = "Invalid or expired token"
  | RateLimitError m => m = "Rate limit exceeded"
  | MeshGuardError _ | TypeError _ => True
  | OtherError name _ => name = "AbortError"
  | PolicyDeniedError _ | SyntaxError _ => False
  end.
Proof.
  intros Hc. run. crush; try done;
    match goal with
    | Hg : Get ?v _ = Err _ |- _ => by destruct v; simplify_eq/=
    end.
Qed.

End Requests.

Section Health.
Context `{Host}.
Import MeshGuardClient.

Lemma health_run this s :
  health this s =
    let url := gatewayUrl this +:+ "/health" in
    let init := with_timeout this RequestInit.empty in
    match global_fetch url init (world s) with
    | (Failed e, w) => (Err (host_error e), tick (tick (logged s (EvFetch url init) w)))
    | (Resolved resp, w) =>
        (match Response.text resp with
         | Resolved text =>
             match JSON_parse text with
             | Some v => Ok v
             | None => Err (SyntaxError (JSON_parse_error text))
             end
         | Failed e => Err (host_error e)
         end,
         tick (tick (tick (logged s (EvFetch url init) w))))
    end.
Proof.
  unfold health, bind, await. rewrite fetch_run. simpl.
  unfold with_timeout, RequestInit.empty. simpl.
  destruct (global_fetch _ _ _) as [[resp|e] w]; simpl; [|reflexivity].
  unfold Response_json, Response_text, JSON_parse_or_throw, bind, lift, settled, ret, throw.
  destruct (Response.text resp) as [text|e]; simpl; [|reflexivity].
  destruct (JSON_parse text); reflexivity.
Qed.

(** X10.  [health] sends a request without headers and does not look at
    the status: a readable body is parsed and returned, and a body that
    does not parse makes it reject with the [SyntaxError] of the host's
    parser for that text. *)
Theorem health_reads_body_whatever_the_status this s resp w text :
  global_fetch (gatewayUrl this +:+ "/health") (with_timeout this RequestInit.empty) (world s)
    = (Resolved resp, w) →
  Response.text resp = Resolved text →
  ∃ s1,
    health this s =
      (match JSON_parse text with
       | Some v => Ok v
       | None => Err (SyntaxError (JSON_parse_error text))
       end, s1)
    ∧ sent_since s s1
        [EvFetch (gatewayUrl this +:+ "/health")
           {| RequestInit.method := None;
              RequestInit.headers := None;
              RequestInit.body := None;
              RequestInit.signal := Some (TimeoutSignal (timeout this)) |}].
Proof.
  intros Hg Ht. rewrite health_run. simpl. rewrite Hg, Ht.
  eexists. split; [reflexivity|]. reflexivity.
Qed.

(** X11.  [isHealthy] never rejects; it returns [true] exactly when the
    health request is answered with a readable body that parses to an
    object whose [status] is the string ["healthy"]. *)
Theorem isHealthy_true_iff this s :
  ∃ b s1,
    isHealthy this s = (Ok b, s1)
    ∧ (b = true ↔
       ∃ resp w text m,
         global_fetch (gatewayUrl this +:+ "/health")
           (with_timeout this RequestInit.empty) (world s) = (Resolved resp, w)
         ∧ Response.text resp = Resolved text
         ∧ JSON_parse text = Some (JObj m)
         ∧ m !! "status" = Some (JStr "healthy")).
Proof.
  unfold isHealthy, try_catch, bind, await. rewrite health_run. simpl.
  destruct (global_fetch _ _ _) as [[resp|e] w] eqn:Hg; simpl.
  2:{ eexists _, _. split; [reflexivity|]. split; [done|]. by intros (? & ? & ? & ? & ? & _). }
  destruct (Response.text resp) as [text|e] eqn:Ht; simpl.
  2:{ eexists _, _. split; [reflexivity|]. split; [done|].
      intros (? & ? & ? & ? & [= <- <-] & ? & _). congruence. }
  destruct (JSON_parse text) as [v|] eqn:Hp; simpl.
  2:{ eexists _, _. split; [reflexivity|]. split; [done|].
      intros (? & ? & ? & ? & [= <- <-] & ? & ? & _). congruence. }
  assert (Hno : ∀ b : bool, (∀ m, v ≠ JObj m) →
            b = false → b = true ↔
            ∃ resp0 w0 text0 m, (Resolved resp, w) = (Resolved resp0, w0)
              ∧ Response.text resp0 = Resolved text0
              ∧ JSON_parse text0 = Some (JObj m) ∧ m !! "status" = Some (JStr "healthy")).
  { intros b Hv ->. split; [done|].
    intros (? & ? & ? & m & [= <- <-] & ? & ? & _). exfalso. apply (Hv m). congruence. }
  destruct v as [| |b0|n0|s0|l0|m|f0]; simpl;
    try (eexists _, _; split; [reflexivity|]; by apply Hno).
  unfold lift, ret. simpl.
  eexists _, _. split; [reflexivity|]. split.
  - intros Heq. exists resp, w, text, m. do 3 (split; [done|]).
    destruct (m !! "status") as [[| | | |st| | |]|]; simpl in Heq; try discriminate.
    by apply String.eqb_eq in Heq as ->.
  - intros (? & ? & ? & m' & [= <- <-] & Ht' & Hp' & Hst).
    assert (m' = m) as -> by congruence. rewrite Hst. simpl. reflexivity.
Qed.

End Health.

Section Attempts.
Context `{Host}.
Import MeshGuardClient.

Lemma transport_calls_logged_fetch s url init w :
  transport_calls (logged s (EvFetch url init) w) = S (transport_calls s).
Proof. unfold transport_calls. simpl. rewrite count_events_app. simpl. lia. Qed.

Lemma transport_calls_sent_one s s1 url init :
  sent_since s s1 [EvFetch url init] → transport_calls s1 = S (transport_calls s).
Proof.
  unfold sent_since, transport_calls. intros ->. rewrite count_events_app. simpl. lia.
Qed.

Lemma enforce_trace this action resource s :
  trace (enforce this action resource s).2 = trace (check this action resource s).2.
Proof.
  rewrite enforce_run. destruct (check this action resource s) as [[d|e] s1]; simpl;
    [destruct (PolicyDecision.allowed d)|]; reflexivity.
Qed.

(** X9.  Each of [check], [enforce], [govern], [request], [health] and
    [isHealthy] calls the transport exactly once, whatever the outcome:
    nothing is retried. *)
Theorem one_transport_call_per_operation this action resource s :
  transport_calls (check this action resource s).2 = S (transport_calls s)
  ∧ transport_calls (enforce this action resource s).2 = S (transport_calls s)
  ∧ (∀ T (fn : Callable T),
       transport_calls (govern this action fn resource s).2 = S (transport_calls s))
  ∧ (∀ method path init,
       transport_calls (request this method path action init s).2 = S (transport_calls s))
  ∧ transport_calls (health this s).2 = S (transport_calls s)
  ∧ transport_calls (isHealthy this s).2 = S (transport_calls s).
Proof.
  assert (Hc : transport_calls (check this action resource s).2 = S (transport_calls s)).
  { destruct (check this action resource s) as [r s1] eqn:Hc.
    apply check_trace in Hc as [Ht _]. by eapply transport_calls_sent_one. }
  assert (He : transport_calls (enforce this action resource s).2 = S (transport_calls s)).
  { unfold transport_calls in *. by rewrite enforce_trace. }
  assert (Hh : transport_calls (health this s).2 = S (transport_calls s)).
  { rewrite health_run. simpl.
    destruct (global_fetch _ _ _) as [[resp|e] w]; simpl;
      apply transport_calls_logged_fetch. }
  split; [done|]. split; [done|]. split; [|split; [|split; [done|]]].
  - intros T fn. rewrite govern_run.
    destruct (enforce this action resource s) as [[d|e] s1]; simpl in *; [|done].
    unfold transport_calls in *. simpl. rewrite count_events_app. simpl. lia.
  - intros method path init. eapply transport_calls_sent_one, request_trace.
  - unfold isHealthy, try_catch, bind, await.
    destruct (health this s) as [[v|e] s1]; simpl in *; [|done].
    unfold lift. destruct (Get v "status"); simpl; done.
Qed.

End Attempts.

Section AdminRequests.
Context `{Host}.
Import MeshGuardClient.

Lemma adminHeaders_with_token this tok :
  adminToken this = Some tok → truthy_str tok = true →
  adminHeaders this = Ok (<[ "X-MeshGuard-Trace-ID" := JStr (traceId this) ]>
                            {[ "X-Admin-Token" := JStr tok ]}).
Proof. intros Ht Hne. unfold adminHeaders. by rewrite Ht, Hne. Qed.

(** The callback of [listAgents] leaves the state alone. *)
Lemma agent_of_state a s : (agent_of a s).2 = s.
Proof. unfold agent_of, bind, lift, ret, throw. by destruct a. Qed.

Lemma mapM_agent_of_state l s : (mapM agent_of l s).2 = s.
Proof.
  induction l as [|a l IH]; [done|]. simpl. unfold bind.
  pose proof (agent_of_state a s) as Ha.
  destruct (agent_of a s) as [[ag|e] s1]; simpl in Ha; subst s1; [|done].
  destruct (mapM agent_of l s) as [[ags|e] s2]; simpl in IH; subst s2; done.
Qed.

(** What an admin operation does after its headers are built: one
    request, then [handleResponse]. *)
Lemma admin_fetch_trace {A} this url init (k : JsValue → M A) s :
  (∀ v s', trace (k v s').2 = trace s') →
  trace (bind (await (fetch this url init))
           (λ response, bind (await (handleResponse response)) k) s).2
    = trace s ++ [EvFetch url (with_timeout this init)].
Proof.
  intros Hk. unfold bind, await. rewrite fetch_run. simpl.
  destruct (global_fetch _ _ _) as [[resp|e] w]; simpl; [|reflexivity].
  match goal with |- context [handleResponse resp ?s0] =>
    assert (Hh : trace (handleResponse resp s0).2 = trace s0) end.
  { run. crush; reflexivity. }
  destruct (handleResponse resp _) as [[v|e] s2]; simpl in *; [|done].
  rewrite Hk. simpl. exact Hh.
Qed.


Lemma bind_lift_Ok {A B} (a : A) (k : A → M B) s : bind (lift (Ok a)) k s = k a s.
Proof. reflexivity. Qed.

Lemma handleResponse_trace response s :
  trace (handleResponse response s).2 = trace s.
Proof. run. crush; reflexivity. Qed.

Lemma admin_fetch_only_trace this url init s :
  trace (bind (await (fetch this url init)) handleResponse s).2
    = trace s ++ [EvFetch url (with_timeout this init)].
Proof.
  unfold bind, await. rewrite fetch_run. simpl.
  destruct (global_fetch _ _ _) as [[resp|e] w]; simpl; [|reflexivity].
  by rewrite handleResponse_trace.
Qed.

(** X12.  With an admin token, [listAgents], [revokeAgent] and
    [listPolicies] each send one request whose headers are exactly
    [X-Admin-Token] and the trace id (so never the agent's bearer token),
    to [/admin/agents], [/admin/agents/{id}] with [DELETE], and
    [/admin/policies]. *)
Theorem admin_requests_carry_admin_token this tok s :
  adminToken this = Some tok → truthy_str tok = true →
  ∃ h,
    h !! "X-Admin-Token" = Some (JStr tok)
    ∧ h !! "X-MeshGuard-Trace-ID" = Some (JStr (traceId this))
    ∧ dom h = ({[ "X-Admin-Token"; "X-MeshGuard-Trace-ID" ]} : gset string)
    ∧ sent_since s (listAgents this s).2
        [EvFetch (gatewayUrl this +:+ "/admin/agents")
           {| RequestInit.method := None;
              RequestInit.headers := Some (HI_Record h);
              RequestInit.body := None;
              RequestInit.signal := Some (TimeoutSignal (timeout this)) |}]
    ∧ (∀ agentId, sent_since s (revokeAgent this agentId s).2
        [EvFetch (gatewayUrl this +:+ "/admin/agents/" +:+ agentId)
           {| RequestInit.method := Some "DELETE";
              RequestInit.headers := Some (HI_Record h);
              RequestInit.body := None;
              RequestInit.signal := Some (TimeoutSignal (timeout this)) |}])
    ∧ sent_since s (listPolicies this s).2
        [EvFetch (gatewayUrl this +:+ "/admin/policies")
           {| RequestInit.method := None;
              RequestInit.headers := Some (HI_Record h);
              RequestInit.body := None;
              RequestInit.signal := Some (TimeoutSignal (timeout this)) |}].
Proof.
  intros Htok Hne. eexists. split; [|split; [|split]].
  4:{ unfold sent_since, listAgents, revokeAgent, listPolicies.
      rewrite (adminHeaders_with_token _ _ Htok Hne).
      split; [|split]; [|intros agentId|]; rewrite bind_lift_Ok.
      - rewrite admin_fetch_trace; [reflexivity|]. intros v s'. unfold bind, lift.
        destruct (Get v "agents") as [agents|e]; simpl; [|done].
        destruct (nullish agents (JArr [])); try done. by rewrite mapM_agent_of_state.
      - by rewrite admin_fetch_trace.
      - rewrite admin_fetch_trace; [reflexivity|]. intros v s'. unfold bind, lift.
        by destruct (Get v "policies"). }
  all: by simplify_map_eq.
Qed.

(** X13.  [createAgent] posts to [/admin/agents], as JSON, an object with
    exactly [name], [trustTier] (["verified"] when omitted) and [tags]
    (empty when omitted), under the admin token and without the agent's
    bearer token. *)
Theorem createAgent_sends this tok options s :
  adminToken this = Some tok → truthy_str tok = true →
  ∃ h m,
    sent_since s (createAgent this options s).2
      [EvFetch (gatewayUrl this +:+ "/admin/agents")
         {| RequestInit.method := Some "POST";
            RequestInit.headers := Some (HI_Record h);
            RequestInit.body := Some (BodyJSON (JObj m));
            RequestInit.signal := Some (TimeoutSignal (timeout this)) |}]
    ∧ h !! "Content-Type" = Some (JStr "application/json")
    ∧ h !! "X-Admin-Token" = Some (JStr tok)
    ∧ h !! "Authorization" = None
    ∧ m !! "name" = Some (JStr (CreateAgentOptions.name options))
    ∧ m !! "trustTier"
        = Some (JStr (default "verified" (CreateAgentOptions.trustTier options)))
    ∧ m !! "tags"
        = Some (JArr (JStr <$> default [] (CreateAgentOptions.tags options)))
    ∧ dom m = ({[ "name"; "trustTier"; "tags" ]} : gset string).
Proof.
  intros Htok Hne. eexists _, _. split.
  { unfold sent_since, createAgent.
    rewrite (adminHeaders_with_token _ _ Htok Hne), bind_lift_Ok.
    rewrite admin_fetch_only_trace. reflexivity. }
  repeat split; by simplify_map_eq.
Qed.

(** X14.  [getAuditLog] queries [/admin/audit] with [limit] first (50 when
    omitted) and with [decision] only when one is given and not empty. *)
Theorem getAuditLog_sends this tok options s :
  adminToken this = Some tok → truthy_str tok = true →
  ∃ h,
    sent_since s (getAuditLog this options s).2
      [EvFetch
         (gatewayUrl this +:+ "/admin/audit?" +:+
          URLSearchParams_toString
            (("limit", Number_toString
                         (default (Number_ofZ 50) (AuditLogOptions.limit options)))
             :: match AuditLogOptions.decision options with
                | Some d => if truthy_str d then [("decision", d)] else []
                | None => []
                end))
         {| RequestInit.method := None;
            RequestInit.headers := Some (HI_Record h);
            RequestInit.body := None;
            RequestInit.signal := Some (TimeoutSignal (timeout this)) |}]
    ∧ h !! "X-Admin-Token" = Some (JStr tok)
    ∧ h !! "Authorization" = None.
Proof.
  intros Htok Hne. eexists. split.
  { unfold sent_since, getAuditLog.
    rewrite (adminHeaders_with_token _ _ Htok Hne), bind_lift_Ok.
    rewrite admin_fetch_trace.
    - do 3 f_equal. destruct (AuditLogOptions.decision options) as [d|]; [|done].
      by destruct (truthy_str d).
    - intros v s'. unfold bind, lift. by destruct (Get v "entries"). }
  split; by simplify_map_eq.
Qed.

End AdminRequests.

Section AdminResults.
Context `{Host}.
Import MeshGuardClient.

(** An admin request that is answered below 400 with a readable body
    hands the value of that body to what follows. *)
Lemma admin_fetch_ok {A} this url init (k : JsValue → M A) s resp w text :
  global_fetch url (with_timeout this init) (world s) = (Resolved resp, w) →
  Response.status resp < 400 →
  Response.text resp = Resolved text →
  ∃ s1, bind (await (fetch this url init))
          (λ response, bind (await (handleResponse response)) k) s
        = k (body_value text) s1.
Proof.
  intros Hg Hlt Ht. unfold bind, await. rewrite fetch_run. simpl.
  unfold with_timeout in Hg. rewrite Hg. simpl.
  rewrite handleResponse_below_400, (safeJson_value _ _ _ Ht) by done. eauto.
Qed.

Lemma mapM_agent_of_objects l s :
  Forall (λ a, a ≠ JNull ∧ a ≠ JUndefined) l →
  ∃ agents,
    mapM agent_of l s = (Ok agents, s)
    ∧ length agents = length l
    ∧ ∀ i a, l !! i = Some a →
        ∃ ag tags, agents !! i = Some ag
          ∧ Get a "id" = Ok (Agent.id ag)
          ∧ Get a "name" = Ok (Agent.name ag)
          ∧ Get a "trustTier" = Ok (Agent.trustTier ag)
          ∧ Get a "tags" = Ok tags ∧ Agent.tags ag = nullish tags (JArr [])
          ∧ Get a "orgId" = Ok (Agent.orgId ag).
Proof.
  induction 1 as [|a l [Hnull Hundef] _ (agents & Hm & Hlen & Hall)].
  - exists []. split; [done|]. split; [done|]. intros i a Hi. by rewrite lookup_nil in Hi.
  - assert (Hget : ∀ k, ∃ v, Get a k = Ok v) by (intros k; destruct a; simpl; eauto; done).
    destruct (Hget "id") as [vid Hid], (Hget "name") as [vname Hname],
      (Hget "trustTier") as [vtier Htier], (Hget "tags") as [vtags Htags],
      (Hget "orgId") as [vorg Horg].
    assert (Ha : agent_of a s =
              (Ok {| Agent.id := vid; Agent.name := vname; Agent.trustTier := vtier;
                     Agent.tags := nullish vtags (JArr []); Agent.orgId := vorg |}, s)).
    { unfold agent_of, bind, lift. by rewrite Hid, Hname, Htier, Htags, Horg. }
    eexists (_ :: agents). split; [|split].
    + change (mapM agent_of (a :: l) s)
        with (bind (agent_of a) (λ y, bind (mapM agent_of l) (λ ys, ret (y :: ys))) s).
      unfold bind. rewrite Ha, Hm. reflexivity.
    + simpl. by rewrite Hlen.
    + intros [|i] a' Hi; simpl in Hi.
      * injection Hi as <-. eexists _, vtags. simpl. by repeat split.
      * by apply Hall.
Qed.

(** X15.  On a success whose body holds an array under [agents] with no
    [null] element, [listAgents] returns one agent per element, in order,
    with the element's [id], [name], [trustTier] and [orgId] and with
    [tags] defaulting to the empty array. *)
Theorem listAgents_parses_each_agent this tok s resp w text m l :
  adminToken this = Some tok → truthy_str tok = true →
  (∀ init, global_fetch (gatewayUrl this +:+ "/admin/agents") (with_timeout this init)
             (world s) = (Resolved resp, w)) →
  Response.status resp < 400 →
  Response.text resp = Resolved text →
  body_value text = JObj m →
  m !! "agents" = Some (JArr l) →
  Forall (λ a, a ≠ JNull ∧ a ≠ JUndefined) l →
  ∃ agents s1,
    listAgents this s = (Ok agents, s1)
    ∧ length agents = length l
    ∧ ∀ i a, l !! i = Some a →
        ∃ ag tags, agents !! i = Some ag
          ∧ Get a "id" = Ok (Agent.id ag)
          ∧ Get a "name" = Ok (Agent.name ag)
          ∧ Get a "trustTier" = Ok (Agent.trustTier ag)
          ∧ Get a "tags" = Ok tags ∧ Agent.tags ag = nullish tags (JArr [])
          ∧ Get a "orgId" = Ok (Agent.orgId ag).
Proof.
  intros Htok Hne Hg Hlt Ht Hm Hagents Hl.
  unfold listAgents. rewrite (adminHeaders_with_token _ _ Htok Hne), bind_lift_Ok.
  edestruct (admin_fetch_ok (A := list Agent.t)) as [s1 ->]; [apply Hg|done..|].
  rewrite Hm. unfold bind, lift. simpl. rewrite Hagents. simpl.
  destruct (mapM_agent_of_objects l s1 Hl) as (agents & -> & Hlen & Hall). eauto.
Qed.

(** X16.  When [agents] is present but is not an array, [listAgents]
    rejects with the [TypeError] of calling [map] on it. *)
Theorem listAgents_needs_an_array this tok s resp w text m v :
  adminToken this = Some tok → truthy_str tok = true →
  (∀ init, global_fetch (gatewayUrl this +:+ "/admin/agents") (with_timeout this init)
             (world s) = (Resolved resp, w)) →
  Response.status resp < 400 →
  Response.text resp = Resolved text →
  body_value text = JObj m →
  m !! "agents" = Some v →
  (∀ l, v ≠ JArr l) → v ≠ JNull → v ≠ JUndefined →
  ∃ s1, listAgents this s = (Err (TypeError "agents.map is not a function"), s1).
Proof.
  intros Htok Hne Hg Hlt Ht Hm Hagents Harr Hnull Hundef.
  unfold listAgents. rewrite (adminHeaders_with_token _ _ Htok Hne), bind_lift_Ok.
  edestruct (admin_fetch_ok (A := list Agent.t)) as [s1 ->]; [apply Hg|done..|].
  rewrite Hm. unfold bind, lift. simpl. rewrite Hagents. simpl.
  destruct v; try done; simpl; eauto. by destruct (Harr l).
Qed.

(** X17.  On a success with an empty or unparsable body the admin
    operations return empty results: no agents, no policies, no audit
    entries, the empty object for [createAgent], nothing for
    [revokeAgent]. *)
Theorem admin_results_on_empty_body this tok s resp text :
  adminToken this = Some tok → truthy_str tok = true →
  (∀ url init, (global_fetch url init (world s)).1 = Resolved resp) →
  Response.status resp < 400 →
  Response.text resp = Resolved text →
  text = "" ∨ JSON_parse text = None →
  (listAgents this s).1 = Ok []
  ∧ (∀ options, (createAgent this options s).1 = Ok (JObj ∅))
  ∧ (∀ agentId, (revokeAgent this agentId s).1 = Ok tt)
  ∧ (listPolicies this s).1 = Ok (JArr [])
  ∧ (∀ options, (getAuditLog this options s).1 = Ok (JArr [])).
Proof.
  intros Htok Hne Hg Hlt Ht Hbad.
  assert (Hv : body_value text = JObj ∅).
  { unfold body_value. destruct Hbad as [->|Hp]; [done|].
    rewrite Hp. by destruct (truthy_str text). }
  assert (Hfetch : ∀ url init, ∃ w,
            global_fetch url (with_timeout this init) (world s) = (Resolved resp, w)).
  { intros url init. specialize (Hg url (with_timeout this init)).
    destruct (global_fetch _ _ _) as [r w]. simpl in Hg. subst r. eauto. }
  unfold listAgents, createAgent, revokeAgent, listPolicies, getAuditLog.
  rewrite (adminHeaders_with_token _ _ Htok Hne).
  repeat split; intros; rewrite bind_lift_Ok.
  - destruct (Hfetch (gatewayUrl this +:+ "/admin/agents")
        {| RequestInit.method := None;
           RequestInit.headers := Some (HI_Record
             (<[ "X-MeshGuard-Trace-ID" := JStr (traceId this) ]>
                {[ "X-Admin-Token" := JStr tok ]}));
           RequestInit.body := None; RequestInit.signal := None |}) as [w Hw].
    edestruct (admin_fetch_ok (A := list Agent.t)) as [s1 ->]; [apply Hw|done..|].
    by rewrite Hv.
  - unfold bind, await. rewrite fetch_run. simpl.
    match goal with |- context [global_fetch ?u ?i (world s)] =>
      destruct (Hfetch u {| RequestInit.method := RequestInit.method i;
                            RequestInit.headers := RequestInit.headers i;
                            RequestInit.body := RequestInit.body i;
                            RequestInit.signal := None |}) as [w Hw] end.
    unfold with_timeout in Hw. simpl in Hw. rewrite Hw. simpl.
    by rewrite handleResponse_below_400, (safeJson_value _ _ _ Ht), Hv.
  - match goal with |- context [fetch this ?u ?i] =>
      destruct (Hfetch u i) as [w Hw] end.
    edestruct (admin_fetch_ok (A := unit)) as [s1 ->]; [apply Hw|done..|]. done.
  - match goal with |- context [fetch this ?u ?i] =>
      destruct (Hfetch u i) as [w Hw] end.
    edestruct (admin_fetch_ok (A := JsValue)) as [s1 ->]; [apply Hw|done..|].
    by rewrite Hv.
  - match goal with |- context [fetch this ?u ?i] =>
      destruct (Hfetch u i) as [w Hw] end.
    edestruct (admin_fetch_ok (A := JsValue)) as [s1 ->]; [apply Hw|done..|].
    by rewrite Hv.
Qed.

End AdminResults.

Section Tools.
Context `{Host}.

(** X18.  When [enforce] allows, the wrapped method is called once with
    the original arguments and its outcome is the outcome of the
    invocation.  A [PolicyDeniedError] the tool throws on the spot is
    handed to the deny handler; one that arrives as a rejected promise is
    not. *)
Theorem governedTool_when_allowed action client tool onDeny prop args s d s1 fn :
  MeshGuardClient.enforce client action None s = (Ok d, s1) →
  Reflect_get tool prop = Some fn →
  let called := logged (tick s1) (EvTool prop args) (fn args (world s1)).2 in
  governedTool action client tool onDeny prop args s =
    match (fn args (world s1)).1 with
    | Returns v => (Ok v, called)
    | Rejects e => (Err e, called)
    | Throws e =>
        match e, onDeny with
        | PolicyDeniedError pe, Some handler =>
            (settle (handler pe args (world called)).1,
             logged called (EvOnDeny pe args) (handler pe args (world called)).2)
        | _, _ => (Err e, called)
        end
    end.
Proof.
  intros He Hfn. unfold governedTool, try_catch, bind, await. rewrite He, Hfn.
  unfold call. simpl.
  destruct (fn args (world s1)) as [[v|e|e] w]; simpl; try reflexivity.
  unfold on_denied, logged. simpl.
  destruct e; try reflexivity. destruct onDeny as [handler|]; [|reflexivity].
  unfold call. simpl. destruct (handler e args w) as [[v|e'|e'] w']; reflexivity.
Qed.

(** X19.  The proxy answers [call] even for a tool without that method:
    the invocation then rejects with a [TypeError] after [enforce] has
    succeeded, deny handler or not. *)
Theorem governedTool_without_legacy_call action client tool onDeny args s d s1 :
  MeshGuardClient.enforce client action None s = (Ok d, s1) →
  LangChainTool.call tool = None →
  governedTool action client tool onDeny m_call args s
    = (Err (TypeError "Cannot read properties of undefined (reading 'apply')"), tick s1).
Proof.
  intros He Hc. unfold governedTool, try_catch, bind, await. rewrite He. simpl.
  rewrite Hc. unfold throw, on_denied. simpl. by destruct onDeny.
Qed.

End Tools.

Section Construction.
Context `{JsNumbers}.
Import MeshGuardClient.

(** X21.  The gateway URL of a constructed client does not end in a slash
    and differs from the URL it was given only by trailing slashes. *)
Theorem new_gatewayUrl_has_no_trailing_slash env uuid options :
  let given := default (default "http://localhost:3100" (MESHGUARD_GATEWAY_URL env))
                 (MeshGuardOptions.gatewayUrl options) in
  ¬ ends_with_slash (gatewayUrl (new env uuid options))
  ∧ ∃ n, given = gatewayUrl (new env uuid options) +:+ slashes n.
Proof.
  simpl.
  destruct (strip_trailing_slashes_split
              (default (default "http://localhost:3100" (MESHGUARD_GATEWAY_URL env))
                 (MeshGuardOptions.gatewayUrl options))) as (n & Hs & Hn).
  split; [exact Hn|]. exists n. exact Hs.
Qed.

(** X22.  A gateway URL without trailing slash is kept as it is, and
    adding any number of trailing slashes to it changes nothing. *)
Theorem new_keeps_normal_gatewayUrl env uuid options url :
  MeshGuardOptions.gatewayUrl options = Some url →
  ¬ ends_with_slash url →
  (∀ n, gatewayUrl (new env uuid
          {| MeshGuardOptions.gatewayUrl := Some (url +:+ slashes n);
             MeshGuardOptions.agentToken := MeshGuardOptions.agentToken options;
             MeshGuardOptions.adminToken := MeshGuardOptions.adminToken options;
             MeshGuardOptions.timeout := MeshGuardOptions.timeout options;
             MeshGuardOptions.traceId := MeshGuardOptions.traceId options |}) = url)
  ∧ gatewayUrl (new env uuid options) = url.
Proof.
  intros Hu Hn. split.
  - intros n. simpl. rewrite strip_trailing_slashes_slashes.
    by apply strip_trailing_slashes_fixed.
  - simpl. rewrite Hu. simpl. by apply strip_trailing_slashes_fixed.
Qed.

End Construction.

Section Tokens.
Context `{Host}.
Import MeshGuardClient.

(** X23.  A constructed client sends ["Bearer " + token] for the token of
    the options, or else of the environment; a token given as the empty
    string switches the header off and hides the environment's token. *)
Theorem new_bearer_header env uuid options :
  headers (new env uuid options) true !! "Authorization" =
    match MeshGuardOptions.agentToken options with
    | Some tok => if truthy_str tok then Some (JStr ("Bearer " +:+ tok)) else None
    | None =>
        match MESHGUARD_AGENT_TOKEN env with
        | Some tok => if truthy_str tok then Some (JStr ("Bearer " +:+ tok)) else None
        | None => None
        end
    end.
Proof.
  rewrite headers_Authorization. simpl.
  by destruct (MeshGuardOptions.agentToken options).
Qed.

End Tokens.

Section ArrayHeaders.
Context `{Host}.
Import MeshGuardClient.

(** X6.  Headers given as an array of pairs are merged under the array's
    index keys: pair [i] is sent, whole, under the name [i], and the
    client's action and trace headers stay as they are. *)
Theorem request_headers_given_as_pairs this action init pairs :
  RequestInit.headers init = Some (HI_Pairs pairs) →
  request_headers this action init !! "X-MeshGuard-Action" = Some (JStr action)
  ∧ request_headers this action init !! "X-MeshGuard-Trace-ID" = Some (JStr (traceId this))
  ∧ ∀ (i : nat) pair, pairs !! i = Some pair →
      request_headers this action init !! pretty i = Some (JArr (JStr <$> pair)).
Proof.
  intros Hi. unfold request_headers. rewrite Hi. simpl.
  assert (Hnone : ∀ k, ¬ not_X_headed k → array_props
            ((λ pair : list string, JArr (JStr <$> pair)) <$> pairs) !! k = None).
  { intros k Hk. apply eq_None_not_Some. intros [v (i & -> & _)%array_props_lookup].
    apply Hk, pretty_nat_not_X_headed. }
  split; [|split].
  - rewrite (lookup_Object_assign _ _ _ _ (own_headers_action this action)) by done.
    rewrite Hnone; [done|]. intros Hx. by eapply Hx.
  - rewrite (lookup_Object_assign _ _ _ _ (own_headers_trace this action)) by done.
    rewrite Hnone; [done|]. intros Hx. by eapply Hx.
  - intros i pair Hp. unfold Object_assign. apply lookup_union_Some_l.
    rewrite lookup_delete_ne by (apply not_eq_sym, pretty_nat_not_proto).
    apply array_props_lookup. exists i. split; [done|].
    by rewrite list_lookup_fmap, Hp.
Qed.

End ArrayHeaders.

Section Kinds.
Context `{Host}.
Import MeshGuardClient.

(** X2.  The error [handleResponse] rejects with tells the status:
    [AuthenticationError] only on 401, [PolicyDeniedError] only on 403,
    [RateLimitError] only on 429, [MeshGuardError] only from 400 up, with
    the status and the body text in its message; a [TypeError] comes from a
    403 (a body that is [null], a field that does not convert to text) or
    from a broken body stream; never a [SyntaxError]. *)
Theorem handleResponse_rejection_kinds response s e s1 :
  handleResponse response s = (Err e, s1) →
  match e with
  | AuthenticationError m =>
      Response.status response = 401 ∧ m = "Invalid or expired token"
  | PolicyDeniedError _ => Response.status response = 403
  | RateLimitError m =>
      Response.status response = 429 ∧ m = "Rate limit exceeded"
  | MeshGuardError m =>
      400 ≤ Response.status response
      ∧ ∃ text, Response.text response = Resolved text
          ∧ m = "Request failed: " +:+ pretty (Response.status response) +:+ " " +:+ text
  | TypeError _ =>
      Response.status response = 403 ∨ ∃ m, Response.text response = Failed (NetworkError m)
  | OtherError name _ =>
      name = "AbortError" ∧ ∃ m, Response.text response = Failed (AbortError m)
  | SyntaxError _ => False
  end.
Proof.
  intros Hr. unfold handleResponse in Hr.
  destruct (Z.eqb_spec (Response.status response) 401) as [E401|N401].
  { unfold throw in Hr. by simplify_eq. }
  destruct (Z.eqb_spec (Response.status response) 403) as [E403|N403].
  { run. crush; eauto;
      first
        [ match goal with
          | Hn : new_PolicyDeniedError _ = Err _ |- _ =>
              apply new_PolicyDeniedError_Err in Hn; simplify_eq; eauto
          end
        | match goal with
          | Hg : Get ?v _ = Err _ |- _ => destruct v; simplify_eq/=; eauto
          end ]. }
  destruct (Z.eqb_spec (Response.status response) 429) as [E429|N429].
  { unfold throw in Hr. by simplify_eq. }
  rewrite Z.geb_leb in Hr.
  destruct (Z.leb_spec 400 (Response.status response)) as [Hge|Hlt].
  - run. crush; eauto.
  - run. crush; eauto.
Qed.

End Kinds.

Section Denials.
Context `{Host}.
Import MeshGuardClient.

(** X24.  [enforce] runs [check] once and follows its outcome.  It rejects
    with a [PolicyDeniedError] exactly when [check] returned a decision
    that is not allowed and the error could be built from it; it builds
    the error whenever the decision's policy, rule and reason convert to
    text; a field that does not makes it reject with the [TypeError] of
    the conversion; an allowed decision is returned unchanged. *)
Theorem enforce_follows_check this action resource s :
  (∀ e s2,
     enforce this action resource s = (Err (PolicyDeniedError e), s2) ↔
     ∃ d s1, check this action resource s = (Ok d, s1)
             ∧ PolicyDecision.allowed d = false
             ∧ denial_error d = Ok e
             ∧ s2 = tick s1)
  ∧ (∀ d s1, check this action resource s = (Ok d, s1) →
       PolicyDecision.allowed d = false →
       printable (PolicyDecision.policy d) →
       printable (PolicyDecision.rule d) →
       printable (PolicyDecision.reason d) →
       ∃ e, denial_error d = Ok e
            ∧ enforce this action resource s = (Err (PolicyDeniedError e), tick s1))
  ∧ (∀ d s1 err, check this action resource s = (Ok d, s1) →
       PolicyDecision.allowed d = false →
       denial_error d = Err err →
       err = TypeError "Cannot convert object to primitive value"
       ∧ enforce this action resource s = (Err err, tick s1))
  ∧ (∀ d s1, check this action resource s = (Ok d, s1) →
       PolicyDecision.allowed d = true →
       enforce this action resource s = (Ok d, tick s1)).
Proof.
  split; [|split; [|split]].
  - intros e s2. split; [apply enforce_PolicyDenied_inv|].
    intros (d & s1 & Hc & Ha & Hd & ->).
    by rewrite (enforce_of_denial _ _ _ _ _ _ Hc Ha), Hd.
  - intros d s1 Hc Ha Hp Hr Hre.
    destruct (new_PolicyDeniedError_printable
                {| opt_action := JStr (PolicyDecision.action d);
                   opt_policy := PolicyDecision.policy d;
                   opt_rule := PolicyDecision.rule d;
                   opt_reason := PolicyDecision.reason d |}) as [e He];
      [apply printable_JStr|done..|].
    exists e. split; [exact He|].
    rewrite (enforce_of_denial _ _ _ _ _ _ Hc Ha). unfold denial_error. by rewrite He.
  - intros d s1 err Hc Ha Hd. split; [by apply new_PolicyDeniedError_Err in Hd|].
    by rewrite (enforce_of_denial _ _ _ _ _ _ Hc Ha), Hd.
  - intros d s1. apply enforce_of_allowance.
Qed.

(** X25.  [govern] calls [fn] only after an allowed decision.  When
    [check] denies, [fn] is not called and [govern] rejects with what
    [enforce] throws: the [PolicyDeniedError] of the decision when its
    policy, rule and reason convert to text.  When [check] allows, [fn] is
    called exactly once, in the world [check] left behind, and [govern]
    settles to what that call settles to. *)
Theorem govern_follows_check {T} this action (fn : Callable T) resource s :
  (∀ d s1, check this action resource s = (Ok d, s1) →
     PolicyDecision.allowed d = false →
     ∃ s2, govern this action fn resource s = (Err (thrown (denial_error d)), s2)
           ∧ fn_calls s2 = fn_calls s
           ∧ world s2 = world s1
           ∧ (printable (PolicyDecision.policy d) →
              printable (PolicyDecision.rule d) →
              printable (PolicyDecision.reason d) →
              ∃ e, denial_error d = Ok e))
  ∧ (∀ d s1, check this action resource s = (Ok d, s1) →
     PolicyDecision.allowed d = true →
     ∃ s2, govern this action fn resource s = (settle (fn (world s1)).1, s2)
           ∧ fn_calls s2 = S (fn_calls s)
           ∧ world s2 = (fn (world s1)).2).
Proof.
  split; intros d s1 Hc Ha.
  - destruct (govern_of_denial this action fn resource s d s1 Hc Ha) as (s2 & Hg & Hn & Hw).
    exists s2. do 3 (split; [done|]). intros Hp Hr Hre. unfold denial_error.
    apply new_PolicyDeniedError_printable; [apply printable_JStr|done..].
  - by eapply govern_of_allowance.
Qed.

End Denials.

(** * Worked examples on the reference host *)

Section Examples.
Import Reference.
#[local] Existing Instance Z_numbers.

(** ** The tests of [tests/client.test.ts] *)

Example constructor_strips_trailing_slash :
  MeshGuardClient.gatewayUrl
    (MeshGuardClient.new no_env "uuid"
       {| MeshGuardOptions.gatewayUrl := Some "https://gw.example.com/";
          MeshGuardOptions.agentToken := Some "tok_abc";
          MeshGuardOptions.adminToken := Some "adm_xyz";
          MeshGuardOptions.timeout := Some 5000;
          MeshGuardOptions.traceId := Some "trace-1" |})
  = "https://gw.example.com".
Proof. vm_compute. reflexivity. Qed.

Example check_returns_allowed_on_200 :
  (MeshGuardClient.check (H0 := mockFetch allowed_200)
     client "read:contacts" None (start allowed_200)).1
  = Ok allowed_decision.
Proof. vm_compute. reflexivity. Qed.

Example check_returns_denied_on_403 :
  (MeshGuardClient.check (H0 := mockFetch denied_403)
     client "read:contacts" None (start denied_403)).1
  = Ok denied_decision.
Proof. vm_compute. reflexivity. Qed.

Example check_throws_on_500 :
  (MeshGuardClient.check (H0 := mockFetch failed_500)
     client "read:data" None (start failed_500)).1
  = Err (MeshGuardError "Request failed: 500 {}").
Proof. vm_compute. reflexivity. Qed.

Example enforce_throws_when_denied :
  (MeshGuardClient.enforce (H0 := mockFetch denied_403)
     client "read:contacts" None (start denied_403)).1
  = Err (PolicyDeniedError
      {| pd_message :=
           "Action 'read:contacts' denied by policy 'strict' (rule: no-contacts): Denied";
         pd_action := JStr "read:contacts";
         pd_policy := JStr "strict";
         pd_rule := JStr "no-contacts";
         pd_reason := JStr "Denied" |}).
Proof. vm_compute. reflexivity. Qed.

Example govern_executes_when_allowed :
  let run := MeshGuardClient.govern (H0 := mockFetch allowed_200)
               client "read:contacts" (fn_42 allowed_200) None (start allowed_200) in
  run.1 = Ok (JNum 42) ∧ fn_calls run.2 = 1%nat ∧ transport_calls run.2 = 1%nat.
Proof. vm_compute. auto. Qed.

Example govern_does_not_execute_when_denied :
  let run := MeshGuardClient.govern (H0 := mockFetch denied_403)
               client "read:contacts" (fn_42 denied_403) None (start denied_403) in
  instanceof_PolicyDeniedError
    (match run.1 with Err e => e | Ok _ => TypeError "" end) = true
  ∧ fn_calls run.2 = 0%nat.
Proof. vm_compute. auto. Qed.

Example PolicyDeniedError_has_documented_message :
  error_message
    (thrown (PolicyDeniedError_of "write:email" (Some "strict") (Some "no-email")
               (Some "Email sending blocked")))
  = "Action 'write:email' denied by policy 'strict' (rule: no-email): Email sending blocked".
Proof. vm_compute. reflexivity. Qed.

Example governed_tool_runs_when_allowed :
  let run := governedTool (H0 := mockFetch allowed_200) "read:contacts" client
               (echo_tool allowed_200) None m_invoke [JStr "query"] (start allowed_200) in
  run.1 = Ok (JStr "query") ∧ tool_calls run.2 = 1%nat.
Proof. vm_compute. auto. Qed.

Example governed_tool_falls_back_when_denied :
  let run := governedTool (H0 := mockFetch denied_403) "read:contacts" client
               (echo_tool denied_403) (Some (blocked_handler denied_403))
               m_invoke [JStr "query"] (start denied_403) in
  run.1 = Ok (JStr "Search blocked: Denied") ∧ tool_calls run.2 = 0%nat.
Proof. vm_compute. auto. Qed.

(** ** C1: a caller-supplied action header replaces the client's *)



(** ** C2: a 204 is an allow *)

Lemma check_204_returns :
  (MeshGuardClient.check (H0 := mockFetch empty_204)
     client "read:data" None (start empty_204)).1
  = Ok {| PolicyDecision.allowed := true;
          PolicyDecision.action := "read:data";
          PolicyDecision.decision := allow;
          PolicyDecision.policy := JUndefined;
          PolicyDecision.rule := JUndefined;
          PolicyDecision.reason := JUndefined;
          PolicyDecision.traceId := "trace-1" |}.
Proof. vm_compute. reflexivity. Qed.

(** C2 (counterexample).  The gateway answers 204, without body, and
    [check] returns an allow decision. *)
Lemma check_allows_on_204 :
  ¬ check_returns_only_on_200_and_403 (H0 := mockFetch empty_204)
      client "read:data" None (start empty_204).
Proof.
  intros Hclaim.
  destruct (Hclaim no_content) as [Hret _]; [by exists tt|].
  pose proof check_204_returns as Hrun.
  destruct (MeshGuardClient.check (H0 := mockFetch empty_204)
              client "read:data" None (start empty_204)) as [r s'] eqn:Hc.
  simpl in Hrun. subst r.
  destruct (Hret _ _ eq_refl) as [[H200 _]|[H403 _]]; discriminate.
Qed.

Lemma check_returns_by_status_witness :
  gateway_answers (H0 := mockFetch empty_204)
    client "read:data" None (start empty_204) no_content
  ∧ ((∀ d s',
        MeshGuardClient.check (H0 := mockFetch empty_204)
          client "read:data" None (start empty_204) = (Ok d, s') →
        (Response.status no_content = 403 ∧ PolicyDecision.allowed d = false)
        ∨ (Response.status no_content < 400 ∧ PolicyDecision.allowed d = true))
     ∧ (400 ≤ Response.status no_content →
        Response.status no_content ≠ 403 →
        ∃ e s', MeshGuardClient.check (H0 := mockFetch empty_204)
                  client "read:data" None (start empty_204) = (Err e, s'))).
Proof.
  assert (Hg : gateway_answers (H0 := mockFetch empty_204)
                 client "read:data" None (start empty_204) no_content)
    by (exists tt; reflexivity).
  split; [exact Hg|].
  exact (check_returns_by_status (H0 := mockFetch empty_204)
           client "read:data" None (start empty_204) no_content Hg).
Defined.

(** ** C3: a 403 whose body is the JSON text [null] *)

(** C3 (the code at the failing input).  The gateway answers 403 with the
    body [null]: [safeJson] returns the parsed [null], reading
    [data.policy] throws inside the [try] block, and the [catch] block
    rethrows what is not a [PolicyDeniedError]. *)
Theorem check_throws_on_403_null_body :
  (MeshGuardClient.check (H0 := mockFetch null_403)
     client "read:contacts" None (start null_403)).1
  = Err (TypeError "Cannot read properties of null (reading 'policy')").
Proof. vm_compute. reflexivity. Qed.

(** ** C4, C5: a 403 whose policy does not convert to text *)

(** C4 (the code at the failing input).  The gateway answers 403 with the
    body [{"policy":{"toString":1}}]: [check] returns the deny decision
    holding that policy, and [enforce], building the message of the
    [PolicyDeniedError] it is to throw, converts the policy to text, which
    throws a [TypeError]. *)
Theorem enforce_throws_TypeError_on_unprintable_policy :
  (MeshGuardClient.check (H0 := mockFetch unprintable_403)
     client "read:contacts" None (start unprintable_403)).1
  = Ok unprintable_decision
  ∧ (MeshGuardClient.enforce (H0 := mockFetch unprintable_403)
       client "read:contacts" None (start unprintable_403)).1
    = Err (TypeError "Cannot convert object to primitive value").
Proof. split; vm_compute; reflexivity. Qed.

(** C5 (the code at the failing input).  On the same answer [govern] does
    not call [fn], and rejects with that [TypeError], not with a
    [PolicyDeniedError]. *)
Theorem govern_rejects_TypeError_on_unprintable_policy :
  let run := MeshGuardClient.govern (H0 := mockFetch unprintable_403)
               client "read:contacts" (fn_42 unprintable_403) None
               (start unprintable_403) in
  run.1 = Err (TypeError "Cannot convert object to primitive value")
  ∧ instanceof_PolicyDeniedError
      (match run.1 with Err e => e | Ok _ => TypeError "" end) = false
  ∧ fn_calls run.2 = 0%nat.
Proof. vm_compute. auto. Qed.

(** ** C9: the denial of the tests *)

Lemma check_decision_invariant_witness :
  ∃ s1,
    MeshGuardClient.check (H0 := mockFetch denied_403)
      client "read:contacts" None (start denied_403) = (Ok denied_decision, s1)
    ∧ (PolicyDecision.allowed denied_decision = true
       ↔ PolicyDecision.decision denied_decision = allow)
    ∧ PolicyDecision.action denied_decision = "read:contacts"
    ∧ PolicyDecision.traceId denied_decision = MeshGuardClient.traceId client.
Proof.
  pose proof check_returns_denied_on_403 as Hrun.
  destruct (MeshGuardClient.check (H0 := mockFetch denied_403)
              client "read:contacts" None (start denied_403)) as [r s1] eqn:Hc.
  simpl in Hrun. subst r. exists s1. split; [reflexivity|].
  destruct (check_decision_invariant (H0 := mockFetch denied_403)
              client "read:contacts" None (start denied_403) denied_decision)
    as [Hcheck _].
  exact (Hcheck s1 Hc).
Defined.

(** ** C6: the deny handler of the README *)

Lemma governed_tool_deny_handling_witness :
  ∃ e s1,
    MeshGuardClient.enforce (H0 := mockFetch denied_403)
      client "read:contacts" None (start denied_403) = (Err (PolicyDeniedError e), s1)
    ∧ pd_reason e = JStr "Denied"
    ∧ governedTool (H0 := mockFetch denied_403) "read:contacts" client
        (echo_tool denied_403) (Some (blocked_handler denied_403))
        m_invoke [JStr "query"] (start denied_403)
      = (Ok (JStr "Search blocked: Denied"),
         logged (tick s1) (EvOnDeny e [JStr "query"]) (world s1)).
Proof.
  pose proof enforce_throws_when_denied as Hrun.
  destruct (MeshGuardClient.enforce (H0 := mockFetch denied_403)
              client "read:contacts" None (start denied_403)) as [r s1] eqn:He.
  simpl in Hrun. subst r. eexists _, s1. split; [reflexivity|]. split; [reflexivity|].
  destruct (governed_tool_deny_handling (H0 := mockFetch denied_403) (start denied_403))
    as [Hproxy _].
  destruct (Hproxy "read:contacts" client (echo_tool denied_403)
              (Some (blocked_handler denied_403)) m_invoke [JStr "query"])
    as [Hhandler _].
  exact (Hhandler _ s1 (blocked_handler denied_403) He eq_refl).
Defined.

(** ** C7: a client without admin token *)

Lemma admin_requires_token_witness :
  truthy_opt (MeshGuardClient.adminToken client) = false
  ∧ MeshGuardClient.listAgents (H0 := mockFetch allowed_200) client (start allowed_200)
    = (Err (AuthenticationError "Admin token required for this operation"),
       start allowed_200)
  ∧ transport_calls (start allowed_200) = 0%nat.
Proof.
  split; [reflexivity|]. split; [|reflexivity].
  exact (proj1 (admin_requires_token (H0 := mockFetch allowed_200)
                  client (start allowed_200) eq_refl)).
Defined.

(** ** C8: an empty policy is left out of the message *)

(** C8 (counterexample).  [new PolicyDeniedError({ action: "read:contacts",
    policy: "" })] has the message
    ["Action 'read:contacts' denied: Access denied by policy"], without the
    policy part the documented composition prints for a present policy. *)
Lemma PolicyDeniedError_omits_empty_policy :
  ∃ e, PolicyDeniedError_of "read:contacts" (Some "") None None = Ok e
       ∧ pd_message e = "Action 'read:contacts' denied: Access denied by policy"
       ∧ pd_message e ≠ documented_message "read:contacts" (Some "") None None.
Proof.
  eexists. split; [vm_compute; reflexivity|]. split; [reflexivity|].
  vm_compute. discriminate.
Qed.

(** ** C10: a 403 with an HTML body *)

Lemma check_denies_on_unparsable_403_witness :
  JSON_parse (Host := mockFetch html_403) "<html>Forbidden</html>" = None
  ∧ ∃ s1 e,
      denial_error (bare_denial client "read:contacts") = Ok e
      ∧ MeshGuardClient.check (H0 := mockFetch html_403)
          client "read:contacts" None (start html_403)
        = (Ok (bare_denial client "read:contacts"), s1)
      ∧ MeshGuardClient.enforce (H0 := mockFetch html_403)
          client "read:contacts" None (start html_403)
        = (Err (PolicyDeniedError e), tick s1)
      ∧ ∀ T (fn : Callable T), ∃ s2,
          MeshGuardClient.govern (H0 := mockFetch html_403)
            client "read:contacts" fn None (start html_403)
          = (Err (PolicyDeniedError e), s2)
          ∧ fn_calls s2 = fn_calls (start html_403).
Proof.
  assert (Hparse : JSON_parse (Host := mockFetch html_403) "<html>Forbidden</html>" = None)
    by (vm_compute; reflexivity).
  split; [exact Hparse|].
  refine (check_denies_on_unparsable_403 (H0 := mockFetch html_403)
            client "read:contacts" None (start html_403)
            (response 403 "<html>Forbidden</html>") "<html>Forbidden</html>"
            _ eq_refl eq_refl (or_intror Hparse)).
  exists tt. reflexivity.
Defined.

End Examples.

(** * Worked examples for the further properties *)

Section FurtherExamples.
Import Reference.
#[local] Existing Instance Z_numbers.

Lemma handleResponse_rejection_kinds_witness :
  400 ≤ 500
  ∧ ∃ text, Response.text (response 500 "{}") = Resolved text
      ∧ "Request failed: 500 {}" = "Request failed: " +:+ pretty 500 +:+ " " +:+ text.
Proof.
  exact (handleResponse_rejection_kinds (H0 := mockFetch failed_500)
           (response 500 "{}") (start failed_500)
           (MeshGuardError "Request failed: 500 {}") (tick (start failed_500)) eq_refl).
Defined.

Lemma check_rejection_kinds_witness :
  ∃ s1, MeshGuardClient.check (H0 := mockFetch failed_500)
          client "read:data" None (start failed_500)
        = (Err (MeshGuardError "Request failed: 500 {}"), s1).
Proof.
  pose proof check_throws_on_500 as Hrun.
  destruct (MeshGuardClient.check (H0 := mockFetch failed_500)
              client "read:data" None (start failed_500)) as [r s1] eqn:Hc.
  simpl in Hrun. subst r. exists s1.
  pose proof (check_rejection_kinds (H0 := mockFetch failed_500)
                client "read:data" None (start failed_500) _ s1 Hc) as Hkind.
  destruct Hkind. reflexivity.
Defined.

Lemma request_returns_iff_witness :
  ∃ s1, MeshGuardClient.request (H0 := mockFetch allowed_200)
          client "GET" "/contacts" "read:contacts" RequestInit.empty (start allowed_200)
        = (Ok {| Response.status := 200;
                 Response.has_body := true;
                 Response.text :=
                   Failed (NetworkError "Body is unusable: Body has already been read") |},
           s1).
Proof.
  apply (proj1 (request_returns_iff (H0 := mockFetch allowed_200)
           client "GET" "/contacts" "read:contacts" RequestInit.empty (start allowed_200)
           (response 200 allow_body) tt eq_refl)).
  split; [reflexivity|]. split; [reflexivity|]. by eexists.
Defined.

Lemma denial_errors_of_enforce_and_request_witness :
  (∃ s1,
     MeshGuardClient.enforce (H0 := mockFetch null_message_403)
       client "read:contacts" None (start null_message_403)
     = (Err (PolicyDeniedError
          {| pd_message := "Action 'read:contacts' denied: null";
             pd_action := JStr "read:contacts";
             pd_policy := JUndefined;
             pd_rule := JUndefined;
             pd_reason := JNull |}), s1))
  ∧ (∃ s1,
     MeshGuardClient.request (H0 := mockFetch null_message_403)
       client "GET" "/contacts" "read:contacts" RequestInit.empty (start null_message_403)
     = (Err (PolicyDeniedError
          {| pd_message := "Action 'write:secrets' denied: Access denied by policy";
             pd_action := JStr "write:secrets";
             pd_policy := JUndefined;
             pd_rule := JUndefined;
             pd_reason := JStr "Access denied by policy" |}), s1)).
Proof.
  assert (Hbody : body_value (H0 := mockFetch null_message_403) null_message_body
                  = JObj (<[ "message" := JNull ]> {[ "action" := JStr "write:secrets" ]}))
    by (vm_compute; reflexivity).
  destruct (denial_errors_of_enforce_and_request (H0 := mockFetch null_message_403)
              client "GET" "/contacts" "read:contacts" RequestInit.empty None
              (start null_message_403) _ _ Hbody) as (Henforce & Hrequest & _).
  split.
  - destruct (Henforce (response 403 null_message_body)) as (s1 & He);
      [by exists tt|reflexivity..|].
    exists s1. exact He.
  - destruct (Hrequest (response 403 null_message_body) tt) as (s1 & He);
      [reflexivity..|].
    exists s1. exact He.
Defined.

Lemma request_headers_given_as_pairs_witness :
  MeshGuardClient.request_headers client "read:contacts" pairs_init
    !! "X-MeshGuard-Action" = Some (JStr "read:contacts")
  ∧ MeshGuardClient.request_headers client "read:contacts" pairs_init
      !! pretty 0%nat = Some (JArr [JStr "X-MeshGuard-Action"; JStr "admin:all"]).
Proof.
  destruct (request_headers_given_as_pairs
              client "read:contacts" pairs_init _ eq_refl) as (Ha & _ & Hp).
  split; [exact Ha|]. exact (Hp 0%nat _ eq_refl).
Defined.

Lemma health_reads_body_whatever_the_status_witness :
  ∃ v s1, MeshGuardClient.health (H0 := mockFetch degraded_503)
            client (start degraded_503) = (Ok v, s1)
          ∧ Get v "status" = Ok (JStr "degraded").
Proof.
  destruct (health_reads_body_whatever_the_status (H0 := mockFetch degraded_503)
              client (start degraded_503) (response 503 degraded_body) tt degraded_body
              eq_refl eq_refl) as (s1 & Hh & _).
  assert (Hp : JSON_parse (Host := mockFetch degraded_503) degraded_body
               = Some (JObj {[ "status" := JStr "degraded" ]}))
    by (vm_compute; reflexivity).
  rewrite Hp in Hh. eexists _, s1. split; [exact Hh|reflexivity].
Defined.

Lemma admin_requests_carry_admin_token_witness :
  ∃ h,
    h !! "X-Admin-Token" = Some (JStr "adm")
    ∧ dom h = ({[ "X-Admin-Token"; "X-MeshGuard-Trace-ID" ]} : gset string)
    ∧ sent_since (start agents_200)
        (MeshGuardClient.revokeAgent (H0 := mockFetch agents_200)
           admin_client "a1" (start agents_200)).2
        [EvFetch (MeshGuardClient.gatewayUrl admin_client +:+ "/admin/agents/" +:+ "a1")
           {| RequestInit.method := Some "DELETE";
              RequestInit.headers := Some (HI_Record h);
              RequestInit.body := None;
              RequestInit.signal :=
                Some (TimeoutSignal (MeshGuardClient.timeout admin_client)) |}].
Proof.
  destruct (admin_requests_carry_admin_token (H0 := mockFetch agents_200)
              admin_client "adm" (start agents_200) eq_refl eq_refl)
    as (h & Htok & _ & Hdom & _ & Hrevoke & _).
  exists h. split; [exact Htok|]. split; [exact Hdom|]. exact (Hrevoke "a1").
Defined.

Lemma createAgent_sends_witness :
  ∃ h m s1 init,
    sent_since (start agents_200) s1 [EvFetch "http://localhost:3100/admin/agents" init]
    ∧ RequestInit.method init = Some "POST"
    ∧ RequestInit.headers init = Some (HI_Record h)
    ∧ RequestInit.body init = Some (BodyJSON (JObj m))
    ∧ h !! "Content-Type" = Some (JStr "application/json")
    ∧ m !! "name" = Some (JStr "New Bot")
    ∧ m !! "trustTier" = Some (JStr "verified")
    ∧ m !! "tags" = Some (JArr []).
Proof.
  destruct (createAgent_sends (H0 := mockFetch agents_200) admin_client "adm"
              {| CreateAgentOptions.name := "New Bot";
                 CreateAgentOptions.trustTier := None;
                 CreateAgentOptions.tags := None |}
              (start agents_200) eq_refl eq_refl)
    as (h & m & Hsent & Hct & _ & _ & Hname & Htier & Htags & _).
  eexists h, m, _, _. split; [exact Hsent|].
  do 3 (split; [reflexivity|]). split; [exact Hct|]. split; [exact Hname|].
  split; [exact Htier|exact Htags].
Defined.

Lemma getAuditLog_sends_witness :
  ∃ h s1 init,
    sent_since (start agents_200) s1
      [EvFetch ("http://localhost:3100/admin/audit?" +:+ "limit=10&decision=deny") init]
    ∧ RequestInit.headers init = Some (HI_Record h)
    ∧ h !! "X-Admin-Token" = Some (JStr "adm").
Proof.
  destruct (getAuditLog_sends (H0 := mockFetch agents_200) admin_client "adm"
              (@AuditLogOptions.mk Z_numbers (Some 10) (Some "deny"))
              (start agents_200) eq_refl eq_refl)
    as (h & Hsent & Htok & _).
  eexists h, _, _. split; [exact Hsent|]. split; [reflexivity|exact Htok].
Defined.

Lemma agents_body_parses :
  body_value (H0 := mockFetch agents_200) agents_body
  = JObj {[ "agents" :=
      JArr [JObj (<[ "tags" := JArr [JStr "prod"] ]>
                  (<[ "trustTier" := JStr "verified" ]>
                   (<[ "name" := JStr "Bot A" ]> {[ "id" := JStr "a1" ]})))] ]}.
Proof. vm_compute. reflexivity. Qed.

Lemma listAgents_parses_each_agent_witness :
  ∃ agents s1,
    MeshGuardClient.listAgents (H0 := mockFetch agents_200) admin_client (start agents_200)
      = (Ok agents, s1)
    ∧ length agents = 1%nat
    ∧ ∃ ag, agents !! 0%nat = Some ag
        ∧ Agent.name ag = JStr "Bot A"
        ∧ Agent.tags ag = JArr [JStr "prod"]
        ∧ Agent.orgId ag = JUndefined.
Proof.
  destruct (listAgents_parses_each_agent (H0 := mockFetch agents_200)
              admin_client "adm" (start agents_200) (response 200 agents_body) tt
              agents_body _ _ eq_refl eq_refl (λ _, eq_refl) ltac:(simpl; lia) eq_refl
              agents_body_parses eq_refl)
    as (agents & s1 & Hrun & Hlen & Hall).
  { repeat constructor; discriminate. }
  exists agents, s1. split; [exact Hrun|]. split; [exact Hlen|].
  destruct (Hall 0%nat _ eq_refl) as (ag & tags & Hag & _ & Hname & _ & Htags & Hnull & Horg).
  exists ag. split; [exact Hag|].
  injection Hname as <-. injection Horg as <-. injection Htags as <-.
  split; [reflexivity|]. split; [exact Hnull|reflexivity].
Defined.

Lemma bad_agents_body_parses :
  body_value (H0 := mockFetch bad_agents_200) bad_agents_body
  = JObj {[ "agents" := JStr "none" ]}.
Proof. vm_compute. reflexivity. Qed.

Lemma listAgents_needs_an_array_witness :
  ∃ s1,
    MeshGuardClient.listAgents (H0 := mockFetch bad_agents_200)
      admin_client (start bad_agents_200)
    = (Err (TypeError "agents.map is not a function"), s1).
Proof.
  apply (listAgents_needs_an_array (H0 := mockFetch bad_agents_200)
           admin_client "adm" (start bad_agents_200) (response 200 bad_agents_body) tt
           bad_agents_body _ (JStr "none") eq_refl eq_refl (λ _, eq_refl)
           ltac:(simpl; lia) eq_refl bad_agents_body_parses eq_refl);
    [intros l|..]; discriminate.
Defined.

Lemma admin_results_on_empty_body_witness :
  (MeshGuardClient.listAgents (H0 := mockFetch empty_200)
     admin_client (start empty_200)).1 = Ok []
  ∧ (MeshGuardClient.listPolicies (H0 := mockFetch empty_200)
       admin_client (start empty_200)).1 = Ok (JArr [])
  ∧ (MeshGuardClient.revokeAgent (H0 := mockFetch empty_200)
       admin_client "a1" (start empty_200)).1 = Ok tt.
Proof.
  destruct (admin_results_on_empty_body (H0 := mockFetch empty_200)
              admin_client "adm" (start empty_200) (response 200 "") ""
              eq_refl eq_refl (λ _ _, eq_refl) ltac:(simpl; lia) eq_refl
              (or_introl eq_refl))
    as (Hagents & _ & Hrevoke & Hpolicies & _).
  split; [exact Hagents|]. split; [exact Hpolicies|exact (Hrevoke "a1")].
Defined.

Lemma enforce_returns_when_allowed :
  (MeshGuardClient.enforce (H0 := mockFetch allowed_200)
     client "read:contacts" None (start allowed_200)).1 = Ok allowed_decision.
Proof. vm_compute. reflexivity. Qed.

Lemma governedTool_when_allowed_witness :
  ∃ s2,
    governedTool (H0 := mockFetch allowed_200) "read:contacts" client
      (echo_tool allowed_200) None m_invoke [JStr "query"] (start allowed_200)
    = (Ok (JStr "query"), s2)
    ∧ tool_calls s2 = 1%nat.
Proof.
  pose proof enforce_returns_when_allowed as Hrun.
  destruct (MeshGuardClient.enforce (H0 := mockFetch allowed_200)
              client "read:contacts" None (start allowed_200)) as [r s1] eqn:He.
  simpl in Hrun. subst r.
  rewrite (governedTool_when_allowed (H0 := mockFetch allowed_200) "read:contacts" client
             (echo_tool allowed_200) None m_invoke [JStr "query"] (start allowed_200)
             _ s1 _ He eq_refl).
  simpl. eexists. split; [reflexivity|].
  pose proof governed_tool_runs_when_allowed as [_ Hcalls].
  unfold governedTool, try_catch, bind, await in Hcalls. rewrite He in Hcalls.
  exact Hcalls.
Defined.

Lemma governedTool_without_legacy_call_witness :
  ∃ s1,
    governedTool (H0 := mockFetch allowed_200) "read:contacts" client
      (echo_tool allowed_200) (Some (blocked_handler allowed_200))
      m_call [JStr "query"] (start allowed_200)
    = (Err (TypeError "Cannot read properties of undefined (reading 'apply')"), tick s1).
Proof.
  pose proof enforce_returns_when_allowed as Hrun.
  destruct (MeshGuardClient.enforce (H0 := mockFetch allowed_200)
              client "read:contacts" None (start allowed_200)) as [r s1] eqn:He.
  simpl in Hrun. subst r. exists s1.
  exact (governedTool_without_legacy_call (H0 := mockFetch allowed_200) "read:contacts"
           client (echo_tool allowed_200) (Some (blocked_handler allowed_200))
           [JStr "query"] (start allowed_200) _ s1 He eq_refl).
Defined.

Lemma new_keeps_normal_gatewayUrl_witness :
  MeshGuardClient.gatewayUrl
    (MeshGuardClient.new no_env "uuid"
       {| MeshGuardOptions.gatewayUrl := Some "https://gw.example.com";
          MeshGuardOptions.agentToken := None;
          MeshGuardOptions.adminToken := None;
          MeshGuardOptions.timeout := None;
          MeshGuardOptions.traceId := None |})
  = "https://gw.example.com".
Proof.
  refine (proj2 (new_keeps_normal_gatewayUrl no_env "uuid"
            {| MeshGuardOptions.gatewayUrl := Some "https://gw.example.com";
               MeshGuardOptions.agentToken := None;
               MeshGuardOptions.adminToken := None;
               MeshGuardOptions.timeout := None;
               MeshGuardOptions.traceId := None |}
            "https://gw.example.com" eq_refl _)).
  intros [front Hf].
  assert (Hrev : String.rev "https://gw.example.com" = String.rev (front +:+ "/"))
    by (by rewrite Hf).
  rewrite rev_append in Hrev. vm_compute in Hrev. discriminate.
Defined.

Lemma enforce_follows_check_witness :
  ∃ s1 e,
    MeshGuardClient.check (H0 := mockFetch denied_403)
      client "read:contacts" None (start denied_403) = (Ok denied_decision, s1)
    ∧ denial_error denied_decision = Ok e
    ∧ MeshGuardClient.enforce (H0 := mockFetch denied_403)
        client "read:contacts" None (start denied_403)
      = (Err (PolicyDeniedError e), tick s1).
Proof.
  pose proof check_returns_denied_on_403 as Hrun.
  destruct (MeshGuardClient.check (H0 := mockFetch denied_403)
              client "read:contacts" None (start denied_403)) as [r s1] eqn:Hc.
  simpl in Hrun. subst r.
  destruct (enforce_follows_check (H0 := mockFetch denied_403)
              client "read:contacts" None (start denied_403)) as (_ & Hbuilt & _).
  destruct (Hbuilt denied_decision s1 Hc eq_refl) as (e & Hd & He);
    [apply printable_JStr..|].
  exists s1, e. split; [reflexivity|]. split; [exact Hd|exact He].
Defined.

Lemma govern_follows_check_witness :
  (∃ s2,
     MeshGuardClient.govern (H0 := mockFetch denied_403)
       client "read:contacts" (fn_42 denied_403) None (start denied_403)
       = (Err (thrown (denial_error denied_decision)), s2)
     ∧ fn_calls s2 = fn_calls (start denied_403))
  ∧ (∃ s2,
     MeshGuardClient.govern (H0 := mockFetch allowed_200)
       client "read:contacts" (fn_42 allowed_200) None (start allowed_200)
       = (Ok (JNum 42), s2)
     ∧ fn_calls s2 = S (fn_calls (start allowed_200))).
Proof.
  split.
  - pose proof check_returns_denied_on_403 as Hrun.
    destruct (MeshGuardClient.check (H0 := mockFetch denied_403)
                client "read:contacts" None (start denied_403)) as [r s1] eqn:Hc.
    simpl in Hrun. subst r.
    destruct (govern_follows_check (H0 := mockFetch denied_403)
                client "read:contacts" (fn_42 denied_403) None (start denied_403))
      as [Hdeny _].
    destruct (Hdeny denied_decision s1 Hc eq_refl) as (s2 & Hg & Hn & _).
    exists s2. split; [exact Hg|exact Hn].
  - pose proof check_returns_allowed_on_200 as Hrun.
    destruct (MeshGuardClient.check (H0 := mockFetch allowed_200)
                client "read:contacts" None (start allowed_200)) as [r s1] eqn:Hc.
    simpl in Hrun. subst r.
    destruct (govern_follows_check (H0 := mockFetch allowed_200)
                client "read:contacts" (fn_42 allowed_200) None (start allowed_200))
      as [_ Hallow].
    destruct (Hallow allowed_decision s1 Hc eq_refl) as (s2 & Hg & Hn & _).
    exists s2. split; [exact Hg|exact Hn].
Defined.

Example health_rejects_on_empty_body :
  (MeshGuardClient.health (H0 := mockFetch empty_200) client (start empty_200)).1
  = Err (SyntaxError "Unexpected end of JSON input").
Proof. vm_compute. reflexivity. Qed.

Example getAuditLog_on_array_body :
  (MeshGuardClient.getAuditLog (H0 := mockFetch (Resolved (response 200 "[]")))
     admin_client (@AuditLogOptions.mk Z_numbers None None)
     (start (Resolved (response 200 "[]")))).1
  = Ok (JNative "entries").
Proof. vm_compute. reflexivity. Qed.

Example isHealthy_is_false_when_degraded :
  (MeshGuardClient.isHealthy (H0 := mockFetch degraded_503)
     client (start degraded_503)).1 = Ok false.
Proof. vm_compute. reflexivity. Qed.

Example isHealthy_is_false_when_unreachable :
  (MeshGuardClient.isHealthy (H0 := mockFetch (Failed (NetworkError "ECONNREFUSED")))
     client (start (Failed (NetworkError "ECONNREFUSED")))).1 = Ok false.
Proof. vm_compute. reflexivity. Qed.

End FurtherExamples.
